(** * Personal dashboard: a shallow embedding of [script.js]

    The script wires three page components to external services: a
    weather display (Open-Meteo over [fetch]), a notes list (Cloud
    Firestore) and a calendar viewer (the Google API client).  This file
    embeds the functions of the script as Rocq functions and proves what
    they render, request and log.

    Conventions of the embedding.
    - A JavaScript string is a [string] holding its UTF-8 bytes.
    - [undefined] and [null] are [None] of an option type where the
      script treats them alike; the members of a calendar event, which
      it prints and tests with [||], are values of [js_value].
    - The page is a finite map from element identifiers to elements; the
      nodes the script creates are values of [node].
    - A function with effects is a computation in the monad [js]: it
      threads the page and either completes or raises.  Every write to
      the page, call into a service and console message is appended to
      the trace of the page.
    - What a service answers is an argument, of type [answer], of the
      function that calls it.  A service fails by throwing or by
      rejecting the promise it returned.
    - A promise chain is embedded as two computations: the call that
      issues the request, and the chain run when the promise settles.
    - The bootstrap [window.initGoogle] runs on a [window]: the page
      with the loads asked of the Google API loader and the weather
      calls suspended at their fetch. *)

From Stdlib Require Import Ascii String ZArith NArith Bool List Lia.
From stdpp Require Import base option gmap strings list pretty.

Local Open Scope string_scope.
Local Open Scope Z_scope.

(** ** Strings *)

Module Str.

Fixpoint take (n : nat) (s : string) : string :=
  match n, s with
  | S n', String c r => String c (take n' r)
  | _, _ => ""
  end.

Fixpoint drop (n : nat) (s : string) : string :=
  match n, s with
  | S n', String _ r => drop n' r
  | _, _ => s
  end.

Fixpoint replicate (n : nat) (c : ascii) : string :=
  match n with
  | O => ""
  | S n' => String c (replicate n' c)
  end.

Definition of_bytes (l : list nat) : string :=
  string_of_list_ascii (map ascii_of_nat l).

(** The code points ECMAScript counts as WhiteSpace or LineTerminator,
    each as its UTF-8 byte sequence: TAB, LF, VT, FF, CR, SP, U+00A0,
    U+1680, U+2000 to U+200A, U+2028, U+2029, U+202F, U+205F, U+3000
    and U+FEFF. *)
Definition whitespace : list string :=
  map of_bytes
    [ [9]; [10]; [11]; [12]; [13]; [32]; [194; 160]; [225; 154; 128];
      [226; 128; 128]; [226; 128; 129]; [226; 128; 130]; [226; 128; 131];
      [226; 128; 132]; [226; 128; 133]; [226; 128; 134]; [226; 128; 135];
      [226; 128; 136]; [226; 128; 137]; [226; 128; 138]; [226; 128; 168];
      [226; 128; 169]; [226; 128; 175]; [226; 129; 159];
      [227; 128; 128]; [239; 187; 191] ]%nat.

(** [strip pats s] removes one leading occurrence of the first pattern
    of [pats] that starts [s]. *)
Fixpoint strip (pats : list string) (s : string) : option string :=
  match pats with
  | [] => None
  | p :: ps =>
      if String.prefix p s then Some (drop (String.length p) s)
      else strip ps s
  end.

(** Strips leading patterns until none applies.  The patterns of
    [whitespace] are not empty, so every round removes at least one byte
    and the length of the string is fuel enough. *)
Fixpoint strip_all (fuel : nat) (pats : list string) (s : string) : string :=
  match fuel with
  | O => s
  | S fuel' =>
      match strip pats s with
      | Some r => strip_all fuel' pats r
      | None => s
      end
  end.

Definition trimStart (s : string) : string :=
  strip_all (String.length s) whitespace s.

Definition trimEnd (s : string) : string :=
  String.rev
    (strip_all (String.length s) (map String.rev whitespace) (String.rev s)).

(** [String.prototype.trim]. *)
Definition trim (s : string) : string := trimEnd (trimStart s).

(** ToBoolean on a string: only the empty string is falsy. *)
Definition truthy (s : string) : bool :=
  match s with
  | "" => false
  | _ => true
  end.

End Str.

(** ** Numbers

    A finite Number is held as the decimal that names it: sign,
    significand and power of ten, [(-1)^negative * significand *
    10^exponent10].  Latitudes, longitudes and temperatures are such
    decimals. *)

Record number := Number {
  negative : bool;
  significand : N;
  exponent10 : Z
}.

Module Num.

Fixpoint drop_zeros (s : string) : string :=
  match s with
  | String "0" r => drop_zeros r
  | _ => s
  end.

Definition strip_trailing_zeros (s : string) : string :=
  String.rev (drop_zeros (String.rev s)).

Definition zeros (n : Z) : string := Str.replicate (Z.to_nat n) "0"%char.

(** Number::toString in radix 10: with [k] the number of significant
    digits and [n] the position of the decimal point, the digits are
    laid out plainly for [-6 < n <= 21] and in exponent form
    otherwise. *)
Definition toString (x : number) : string :=
  if (significand x =? 0)%N then "0"
  else
    let all := pretty (significand x) in
    let ds := strip_trailing_zeros all in
    let k := Z.of_nat (String.length ds) in
    let n := Z.of_nat (String.length all) + exponent10 x in
    let body :=
      if (k <=? n) && (n <=? 21) then ds +:+ zeros (n - k)
      else if (0 <? n) && (n <=? 21) then
        Str.take (Z.to_nat n) ds +:+ "." +:+ Str.drop (Z.to_nat n) ds
      else if (-6 <? n) && (n <=? 0) then "0." +:+ zeros (- n) +:+ ds
      else
        let e := n - 1 in
        let mantissa :=
          if k =? 1 then ds
          else Str.take 1 ds +:+ "." +:+ Str.drop 1 ds in
        mantissa +:+ "e" +:+ (if 0 <=? e then "+" else "-")
          +:+ pretty (Z.abs e)
    in
    if negative x then "-" +:+ body else body.

End Num.

(** ** Weather code interpretation (script.js, lines 65-104)

    An integer code indexes the table through its decimal numeral, and
    no inherited property of an object is named by a numeral: the table
    is a finite map on the integers. *)

Definition weatherCodeMap : gmap Z string :=
  list_to_map
    [ (0, "Clear sky");
      (1, "Mainly clear");
      (2, "Partly cloudy");
      (3, "Overcast");
      (45, "Fog");
      (48, "Depositing rime fog");
      (51, "Light drizzle");
      (53, "Moderate drizzle");
      (55, "Dense drizzle");
      (56, "Light freezing drizzle");
      (57, "Dense freezing drizzle");
      (61, "Slight rain");
      (63, "Moderate rain");
      (65, "Heavy rain");
      (66, "Light freezing rain");
      (67, "Heavy freezing rain");
      (71, "Slight snowfall");
      (73, "Moderate snowfall");
      (75, "Heavy snowfall");
      (77, "Snow grains");
      (80, "Slight rain showers");
      (81, "Moderate rain showers");
      (82, "Violent rain showers");
      (85, "Slight snow showers");
      (86, "Heavy snow showers");
      (95, "Thunderstorm");
      (96, "Thunderstorm with slight hail");
      (99, "Thunderstorm with heavy hail") ].

(** [a || b] where [a] is a string or [undefined]: [b] replaces a falsy
    [a], that is [undefined] or the empty string. *)
Definition or_else (a : option string) (b : string) : string :=
  match a with
  | Some s => if Str.truthy s then s else b
  | None => b
  end.

Definition interpretWeatherCode (code : Z) : string :=
  or_else (weatherCodeMap !! code) "Unknown conditions".

(** ** Errors and answers of external calls *)

Inductive error :=
| Error (message : string)       (* [new Error(message)] *)
| TypeError (message : string)   (* raised by the language itself *)
| Failure (reason : string).     (* raised or rejected by a service *)

(** What a call into a service, or the promise it returns, ends in. *)
Inductive answer (A : Type) :=
| Returns (a : A)
| Fails (e : error).

Arguments Returns {A} a.
Arguments Fails {A} e.

(** ** The page *)

(** The closures the script installs as click handlers, each with the
    variables it captures. *)
Inductive listener :=
| DeleteNoteClick (id : string)       (* line 157, captures [docSnap.id] *)
| SaveNoteClick (notesCol : string)   (* line 187, captures [notesCol] *)
| HandleAuthClick
| HandleSignoutClick.

(** The callbacks the script hands to the services. *)
Inductive callback :=
| RenderNotes            (* the arrow function of line 183 *)
| UpdateSigninStatus.

(** Nodes the script creates with [createElement] and fills in. *)
#[warnings="-register-all"]
Inductive node :=
| Text (data : string)
| Elem (tagName : string) (children : list node) (click : list listener).

(** An element of the host page, reached by its identifier. *)
Record element := Element {
  childNodes : list node;
  value : string;
  disabled : bool;
  display : string;
  clickListeners : list listener;
  onclick : option listener
}.

(** The assignments and method calls the script performs on elements of
    the page. *)
Inductive mutation :=
| SetTextContent (text : string)
| ClearInnerHTML                       (* [innerHTML = ''] *)
| AppendChild (child : node)
| SetValue (text : string)
| SetDisabled (flag : bool)
| SetDisplay (style : string)
| SetOnclick (handler : listener)
| AddClickListener (handler : listener).

Inductive request :=
| Fetch (url : string)
| InitializeApp (apiKey projectId : string)
| GetFirestore
| OnSnapshot (col : string) (cb : callback)
| AddDoc (col text : string)
| DeleteDoc (col id : string)
| ClientInit (apiKey clientId : string) (discoveryDocs : list string)
    (scope : string)
| SigninListen (cb : callback)
| SignIn
| SignOut
| EventsList (calendarId timeMin : string) (showDeleted singleEvents : bool)
    (maxResults : Z) (orderBy : string).

(** Everything the script does that can be observed from outside, in
    the order it happens. *)
Inductive effect :=
| Write (id : string) (m : mutation)
| Call (r : request)
| ConsoleWarn (message : string) (e : error)
| ConsoleError (message : string) (e : error)
| Uncaught (e : error).     (* reported by the host, see [host_run] *)

Record page := Page {
  db : option string;                     (* the module variable [db] *)
  document : gmap string element;
  snapshotListeners : list (string * callback);
  signinListeners : list callback;
  trace : list effect
}.

(** Text nodes standing for a string: none for the empty string. *)
Definition text_nodes (s : string) : list node :=
  if Str.truthy s then [Text s] else [].

Fixpoint node_textContent (n : node) : string :=
  match n with
  | Text s => s
  | Elem _ cs _ => fold_right (fun c acc => node_textContent c +:+ acc) "" cs
  end.

Definition textContent (e : element) : string :=
  fold_right (fun c acc => node_textContent c +:+ acc) "" (childNodes e).

Definition apply_mutation (m : mutation) (e : element) : element :=
  match m with
  | SetTextContent s =>
      Element (text_nodes s) (value e) (disabled e) (display e)
        (clickListeners e) (onclick e)
  | ClearInnerHTML =>
      Element [] (value e) (disabled e) (display e)
        (clickListeners e) (onclick e)
  | AppendChild c =>
      Element (childNodes e ++ [c]) (value e) (disabled e) (display e)
        (clickListeners e) (onclick e)
  | SetValue s =>
      Element (childNodes e) s (disabled e) (display e)
        (clickListeners e) (onclick e)
  | SetDisabled b =>
      Element (childNodes e) (value e) b (display e)
        (clickListeners e) (onclick e)
  | SetDisplay s =>
      Element (childNodes e) (value e) (disabled e) s
        (clickListeners e) (onclick e)
  | SetOnclick h =>
      Element (childNodes e) (value e) (disabled e) (display e)
        (clickListeners e) (Some h)
  | AddClickListener h =>
      Element (childNodes e) (value e) (disabled e) (display e)
        (clickListeners e ++ [h]) (onclick e)
  end.

(** Created nodes, before they are attached to the page. *)
Definition createElement (tagName : string) : node := Elem tagName [] [].

Definition node_setTextContent (n : node) (s : string) : node :=
  match n with
  | Text _ => Text s
  | Elem t _ ls => Elem t (text_nodes s) ls
  end.

Definition node_appendChild (n child : node) : node :=
  match n with
  | Text s => Text s
  | Elem t cs ls => Elem t (cs ++ [child]) ls
  end.

Definition node_addEventListener (n : node) (h : listener) : node :=
  match n with
  | Text s => Text s
  | Elem t cs ls => Elem t cs (ls ++ [h])
  end.

(** ** Computations

    A computation runs on a page and either completes with a value or
    raises; the page it leaves behind holds the effects up to then.  For
    an [async] function, raising stands for the rejection of the promise
    it returned. *)

Definition js (A : Type) : Type := page -> page * (error + A).

#[global] Instance js_ret : MRet js := fun A a σ => (σ, inr a).

#[global] Instance js_bind : MBind js := fun A B f m σ =>
  match m σ with
  | (σ', inr a) => f a σ'
  | (σ', inl e) => (σ', inl e)
  end.

Definition throw {A : Type} (e : error) : js A := fun σ => (σ, inl e).

(** [try { body } catch (e) { handler e }]. *)
Definition try_catch {A : Type} (body : js A) (handler : error -> js A) : js A :=
  fun σ =>
    match body σ with
    | (σ', inr a) => (σ', inr a)
    | (σ', inl e) => handler e σ'
    end.

Definition emit (ev : effect) : js unit := fun σ =>
  (Page (db σ) (document σ) (snapshotListeners σ) (signinListeners σ)
     (trace σ ++ [ev]), inr tt).

(** Waiting for an answer: [await] of a rejected promise raises, as does
    a call that throws. *)
Definition await {A : Type} (ans : answer A) : js A := fun σ =>
  match ans with
  | Returns a => (σ, inr a)
  | Fails e => (σ, inl e)
  end.

(** A call into a service: the request is issued, then the service
    answers. *)
Definition call {A : Type} (r : request) (ans : answer A) : js A :=
  emit (Call r) ;; await ans.

(** [p.then(on_fulfilled).catch(on_rejected)]: the second callback
    receives a rejection of [p] and whatever the first one raises. *)
Definition then_catch {A : Type} (p : js A) (on_fulfilled : A -> js unit)
    (on_rejected : error -> js unit) : js unit :=
  try_catch (a ← p; on_fulfilled a) on_rejected.

Definition console_error (message : string) (e : error) : js unit :=
  emit (ConsoleError message e).

Definition console_warn (message : string) (e : error) : js unit :=
  emit (ConsoleWarn message e).

(** A reference to an element of the page is its identifier. *)
Definition element_ref (doc : gmap string element) (id : string) : option string :=
  match doc !! id with
  | Some _ => Some id
  | None => None
  end.

(** [document.getElementById]: a reference to the element, or [null]. *)
Definition getElementById (id : string) : js (option string) := fun σ =>
  (σ, inr (element_ref (document σ) id)).

(** A write through a reference obtained from [getElementById]; on
    [null] the language raises a TypeError. *)
Definition mutate (target : option string) (m : mutation) : js unit :=
  match target with
  | None => throw (TypeError "Cannot set properties of null")
  | Some id => fun σ =>
      (Page (db σ) (alter (apply_mutation m) id (document σ))
         (snapshotListeners σ) (signinListeners σ)
         (trace σ ++ [Write id m]), inr tt)
  end.

(** Reading [input.value]. *)
Definition get_value (target : option string) : js string :=
  match target with
  | None => throw (TypeError "Cannot read properties of null")
  | Some id => fun σ =>
      match document σ !! id with
      | Some e => (σ, inr (value e))
      | None => (σ, inl (TypeError "Cannot read properties of null"))
      end
  end.

(** [list.forEach(f)]. *)
Fixpoint forEach {A : Type} (l : list A) (f : A -> js unit) : js unit :=
  match l with
  | [] => mret tt
  | x :: r => f x ;; forEach r f
  end.

(** ** Weather (script.js, lines 115-138) *)

Record current_weather_t := CurrentWeather {
  temperature : number;
  weathercode : Z
}.

(** The body of a forecast response once parsed: the JSON value [null],
    or an object whose [current_weather] member is missing or is, as the
    endpoint documents it, an object with a numeric temperature and an
    integer weather code. *)
Inductive forecast :=
| JsonNull
| JsonObject (current_weather : option current_weather_t).

Record response := Response {
  ok : bool;
  json : answer forecast          (* what [response.json()] settles to *)
}.

(** [data.current_weather]: reading a member of [null] raises. *)
Definition get_current_weather (data : forecast) : js (option current_weather_t) :=
  match data with
  | JsonNull => throw (TypeError "Cannot read properties of null")
  | JsonObject c => mret c
  end.

Definition weather_url (lat lon : number) : string :=
  "https://api.open-meteo.com/v1/forecast?latitude=" +:+ Num.toString lat
    +:+ "&longitude=" +:+ Num.toString lon
    +:+ "&current_weather=true&timezone=America/New_York".

Definition fetchWeather (lat lon : number) (tempElemId descElemId : string)
    (net : answer response) : js unit :=
  try_catch
    (let url := weather_url lat lon in
     response ← call (Fetch url) net;
     if negb (ok response) then throw (Error "Weather request failed")
     else
       data ← await (json response);
       current ← get_current_weather data;
       match current with
       | None =>
           t ← getElementById tempElemId;
           mutate t (SetTextContent "No data available") ;;
           d ← getElementById descElemId;
           mutate d (SetTextContent "")
       | Some current =>
           let temperature := temperature current in
           let code := weathercode current in
           t ← getElementById tempElemId;
           mutate t (SetTextContent (Num.toString temperature +:+ "°C")) ;;
           d ← getElementById descElemId;
           mutate d (SetTextContent (interpretWeatherCode code))
       end)
    (fun error =>
       console_error "Error fetching weather:" error ;;
       t ← getElementById tempElemId;
       mutate t (SetTextContent "Error fetching weather") ;;
       d ← getElementById descElemId;
       mutate d (SetTextContent "")).

(** ** Store initialisation (script.js, lines 33-55) *)

Record firebase_config := FirebaseConfig {
  apiKey : string;
  authDomain : string;
  projectId : string;
  storageBucket : string;
  messagingSenderId : string;
  appId : string
}.

Definition firebaseConfig : firebase_config :=
  FirebaseConfig "YOUR_FIREBASE_API_KEY" "YOUR_FIREBASE_AUTH_DOMAIN"
    "YOUR_FIREBASE_PROJECT_ID" "YOUR_FIREBASE_STORAGE_BUCKET"
    "YOUR_FIREBASE_MESSAGING_SENDER_ID" "YOUR_FIREBASE_APP_ID".

Definition set_db (handle : string) : js unit := fun σ =>
  (Page (Some handle) (document σ) (snapshotListeners σ) (signinListeners σ)
     (trace σ), inr tt).

Definition get_db : js (option string) := fun σ => (σ, inr (db σ)).

(** The statements at the top of the module: [db] stays [undefined]
    when either call throws. *)
Definition initFirebase (appAns storeAns : answer string) : js unit :=
  try_catch
    (app ← call (InitializeApp (apiKey firebaseConfig) (projectId firebaseConfig)) appAns;
     handle ← call GetFirestore storeAns;
     set_db handle)
    (fun err =>
       console_warn
         ("Firebase could not be initialized. Please provide your own configuration."
            +:+ Str.of_bytes [10%nat])
         err).

(** ** Notes (script.js, lines 149-198) *)

(** A document of a snapshot: [docSnap.id] and [docSnap.data().text],
    documents having the shape [{ text: string }]. *)
Record docSnap := DocSnap {
  doc_id : string;
  doc_text : string
}.

(** The list item [renderNotes] builds for one document. *)
Definition note_item (docSnap : docSnap) : node :=
  let li := createElement "li" in
  let li := node_setTextContent li (doc_text docSnap) in
  let delBtn := createElement "button" in
  let delBtn := node_setTextContent delBtn "Delete" in
  let delBtn := node_addEventListener delBtn (DeleteNoteClick (doc_id docSnap)) in
  node_appendChild li delBtn.

Definition renderNotes (snapshot : list docSnap) : js unit :=
  notesList ← getElementById "notes-list";
  mutate notesList ClearInnerHTML ;;
  forEach snapshot (fun docSnap =>
    mutate notesList (AppendChild (note_item docSnap))).

(** The click handler of a delete button. *)
Definition deleteNoteClick (id : string) (ans : answer unit) : js unit :=
  try_catch
    (call (DeleteDoc "notes" id) ans)
    (fun e => console_error "Error deleting note:" e).

(** [collection(db, path)]: a collection is named by its path. *)
Definition collection (handle path : string) : string := path.

(** [onSnapshot(col, cb)]: the listener is registered with the store. *)
Definition onSnapshot (col : string) (cb : callback) : js unit := fun σ =>
  (Page (db σ) (document σ) (snapshotListeners σ ++ [(col, cb)])
     (signinListeners σ) (trace σ ++ [Call (OnSnapshot col cb)]), inr tt).

(** The click handler of the save button.  The answer of the store to
    the create request is [ans]. *)
Definition saveNoteClick (notesCol : string) (ans : answer unit) : js unit :=
  input ← getElementById "note-input";
  v ← get_value input;
  let text := Str.trim v in
  if negb (Str.truthy text) then mret tt
  else
    try_catch
      (call (AddDoc notesCol text) ans ;;
       mutate input (SetValue ""))
      (fun e => console_error "Error adding note:" e).

Definition initNotes : js unit :=
  handle ← get_db;
  match handle with
  | None =>
      saveButton ← getElementById "save-note";
      mutate saveButton (SetDisabled true) ;;
      mutate saveButton (SetTextContent "Notes unavailable")
  | Some db =>
      let notesCol := collection db "notes" in
      onSnapshot notesCol RenderNotes ;;
      saveButton ← getElementById "save-note";
      mutate saveButton (AddClickListener (SaveNoteClick notesCol))
  end.

(** ** Calendar (script.js, lines 207-310) *)

Definition GOOGLE_API_KEY : string := "YOUR_GOOGLE_API_KEY".
Definition GOOGLE_CLIENT_ID : string :=
  "YOUR_GOOGLE_CLIENT_ID.apps.googleusercontent.com".
Definition DISCOVERY_DOCS : list string :=
  [ "https://www.googleapis.com/discovery/v1/apis/calendar/v3/rest" ].
Definition SCOPES : string :=
  "https://www.googleapis.com/auth/calendar.readonly".

(** What the script reads from a member of an event: a string, [null],
    or [undefined] when the response does not carry the member. *)
Inductive js_value :=
| JsUndefined
| JsNull
| JsString (s : string).

(** What the browser supplies: [new Date(when).toLocaleString()], which
    depends on its locale and time zone. *)
Class Host := {
  toLocaleString : js_value -> string
}.

Record event_start := EventStart {
  dateTime : js_value;
  date : js_value
}.

Record calendar_event := CalendarEvent {
  start : event_start;
  summary : js_value
}.

(** [response.result]; its [items] member may be missing. *)
Record events_result := EventsResult {
  items : option (list calendar_event)
}.

(** [a || b]: [a] when it is truthy, that is a non-empty string, and
    [b] otherwise. *)
Definition or_value (a b : js_value) : js_value :=
  match a with
  | JsString s => if Str.truthy s then JsString s else b
  | JsNull | JsUndefined => b
  end.

(** A value spliced into a template literal. *)
Definition spliced (v : js_value) : string :=
  match v with
  | JsString s => s
  | JsNull => "null"
  | JsUndefined => "undefined"
  end.

Definition event_item `{Host} (event : calendar_event) : node :=
  let when := or_value (dateTime (start event)) (date (start event)) in
  let li := createElement "li" in
  node_setTextContent li
    (toLocaleString when +:+ " — " +:+ spliced (summary event)).

Definition placeholder_item : node :=
  let li := createElement "li" in
  node_setTextContent li "No upcoming events found.".

(** The request of [listUpcomingEvents]; [now] is what
    [new Date().toISOString()] reads off the clock.  The call returns
    with the promise pending. *)
Definition listUpcomingEvents (now : string) : js unit :=
  emit (Call (EventsList "primary" now false true 10 "startTime")).

(** The [then] callback of [listUpcomingEvents]. *)
Definition listUpcomingEvents_then `{Host} (result : events_result) : js unit :=
  let events := items result in
  eventsList ← getElementById "events";
  mutate eventsList ClearInnerHTML ;;
  match events with
  | None => throw (TypeError "Cannot read properties of undefined")
  | Some events =>
      if (0 <? length events)%nat then
        forEach events (fun event =>
          mutate eventsList (AppendChild (event_item event)))
      else
        mutate eventsList (AppendChild placeholder_item)
  end.

(** The promise chain of [listUpcomingEvents], run when the listing
    settles. *)
Definition listUpcomingEvents_settled `{Host} (ans : answer events_result) : js unit :=
  then_catch (await ans) listUpcomingEvents_then
    (fun err => console_error "Error fetching events" err).

Definition updateSigninStatus (isSignedIn : bool) (now : string) : js unit :=
  authorizeButton ← getElementById "authorize_button";
  signoutButton ← getElementById "signout_button";
  if isSignedIn then
    mutate authorizeButton (SetDisplay "none") ;;
    mutate signoutButton (SetDisplay "inline-block") ;;
    listUpcomingEvents now
  else
    mutate authorizeButton (SetDisplay "inline-block") ;;
    mutate signoutButton (SetDisplay "none") ;;
    events ← getElementById "events";
    mutate events ClearInnerHTML.

(** [isSignedIn.listen(cb)]. *)
Definition signin_listen (cb : callback) : js unit := fun σ =>
  (Page (db σ) (document σ) (snapshotListeners σ) (signinListeners σ ++ [cb])
     (trace σ ++ [Call (SigninListen cb)]), inr tt).

(** The request of [initClient]. *)
Definition initClient : js unit :=
  emit (Call (ClientInit GOOGLE_API_KEY GOOGLE_CLIENT_ID DISCOVERY_DOCS SCOPES)).

(** The promise chain of [initClient], run when the client
    initialisation settles; [signedIn] is what [isSignedIn.get()]
    returns. *)
Definition initClient_settled (ans : answer unit) (signedIn : bool)
    (now : string) : js unit :=
  then_catch (await ans)
    (fun _ =>
       signin_listen UpdateSigninStatus ;;
       updateSigninStatus signedIn now ;;
       a ← getElementById "authorize_button";
       mutate a (SetOnclick HandleAuthClick) ;;
       s ← getElementById "signout_button";
       mutate s (SetOnclick HandleSignoutClick))
    (fun error => console_error "Error initialising Google API client" error).

(** [signIn()] returns a promise that the handler drops: no callback is
    attached, so a rejection reaches the host unhandled. *)
Definition handleAuthClick (ans : answer unit) : js unit :=
  call SignIn ans.

Definition handleSignoutClick (ans : answer unit) : js unit :=
  call SignOut ans.

(** ** The host

    The browser runs each handler to completion.  An error the handler
    raises, or a rejection nothing handles, is reported as uncaught and
    the page goes on. *)

Definition host_run (m : js unit) (σ : page) : page :=
  match m σ with
  | (σ', inr _) => σ'
  | (σ', inl e) =>
      Page (db σ') (document σ') (snapshotListeners σ') (signinListeners σ')
        (trace σ' ++ [Uncaught e])
  end.

Definition run_listener (h : listener) (ans : answer unit) : js unit :=
  match h with
  | DeleteNoteClick id => deleteNoteClick id ans
  | SaveNoteClick notesCol => saveNoteClick notesCol ans
  | HandleAuthClick => handleAuthClick ans
  | HandleSignoutClick => handleSignoutClick ans
  end.

(** The click listeners met from the node at [path] below [n] up to [n]
    itself, as a click on that node bubbles. *)
Fixpoint node_click_path (path : list nat) (n : node) : list listener :=
  match path, n with
  | [], Text _ => []
  | [], Elem _ _ ls => ls
  | i :: path', Elem _ cs ls =>
      match cs !! i with
      | Some c => node_click_path path' c ++ ls
      | None => []
      end
  | _ :: _, Text _ => []
  end.

Definition own_listeners (e : element) : list listener :=
  clickListeners e ++ match onclick e with Some h => [h] | None => [] end.

(** The click listeners a click inside an element of the page runs;
    the empty path is the element itself. *)
Definition click_path (path : list nat) (e : element) : list listener :=
  match path with
  | [] => own_listeners e
  | i :: path' =>
      match childNodes e !! i with
      | Some c => node_click_path path' c ++ own_listeners e
      | None => []
      end
  end.

(** What can happen to the page once the script is loaded.  Each event
    carries the answers of the services the handlers it runs will call,
    and the clock reading they take. *)
Inductive page_event :=
| Click (id : string) (path : list nat) (ans : answer unit)
| SnapshotDelivered (col : string) (snapshot : list docSnap)
| SigninChanged (isSignedIn : bool) (now : string)
| ClientLoaded      (* the client library is loaded and calls [initClient] *)
| ClientInitSettled (ans : answer unit) (signedIn : bool) (now : string)
| EventsListSettled (ans : answer events_result).

Definition run_snapshot_callback (cb : callback) (snapshot : list docSnap) : js unit :=
  match cb with
  | RenderNotes => renderNotes snapshot
  | UpdateSigninStatus => mret tt
  end.

Definition run_signin_callback (cb : callback) (isSignedIn : bool)
    (now : string) : js unit :=
  match cb with
  | UpdateSigninStatus => updateSigninStatus isSignedIn now
  | RenderNotes => mret tt
  end.

(** Delivery of one event.  Events are not matched against pending
    requests: the host may deliver any of them at any time, which covers
    every order a browser can produce. *)
Definition deliver `{Host} (ev : page_event) (σ : page) : page :=
  match ev with
  | Click id path ans =>
      match document σ !! id with
      | Some e =>
          fold_left (fun σ h => host_run (run_listener h ans) σ)
            (click_path path e) σ
      | None => σ
      end
  | SnapshotDelivered col snapshot =>
      fold_left
        (fun σ l =>
           if String.eqb (fst l) col
           then host_run (run_snapshot_callback (snd l) snapshot) σ
           else σ)
        (snapshotListeners σ) σ
  | SigninChanged isSignedIn now =>
      fold_left
        (fun σ cb => host_run (run_signin_callback cb isSignedIn now) σ)
        (signinListeners σ) σ
  | ClientLoaded => host_run initClient σ
  | ClientInitSettled ans signedIn now =>
      host_run (initClient_settled ans signedIn now) σ
  | EventsListSettled ans =>
      host_run (listUpcomingEvents_settled ans) σ
  end.

Definition deliver_all `{Host} (evs : list page_event) (σ : page) : page :=
  fold_left (fun σ ev => deliver ev σ) evs σ.

(** ** Vocabulary of the statements *)

(** The page has an element with this identifier. *)
Definition present (id : string) (σ : page) : Prop :=
  is_Some (document σ !! id).

(** The text an element of the page shows. *)
Definition slot_text (id : string) (σ : page) : option string :=
  textContent <$> document σ !! id.

Definition is_text_write (id : string) (ev : effect) : bool :=
  match ev with
  | Write id' (SetTextContent _) => String.eqb id id'
  | _ => false
  end.

(** How many times a trace assigns [textContent] of an element. *)
Definition text_writes (id : string) (tr : list effect) : nat :=
  length (filter (fun ev => is_text_write id ev = true) tr).

(** How many warnings a trace holds. *)
Definition warnings (tr : list effect) : nat :=
  length (filter (fun ev => match ev with ConsoleWarn _ _ => true | _ => false end = true) tr).

(** The ways a weather fetch fails, each with the error it raises inside
    the [try] block: the request is rejected, the status is not a
    success, the body does not parse, or the body is [null]. *)
Inductive fetch_fails : answer response -> error -> Prop :=
| network_error (e : error) :
    fetch_fails (Fails e) e
| bad_status (r : response) :
    ok r = false ->
    fetch_fails (Returns r) (Error "Weather request failed")
| parse_error (r : response) (e : error) :
    ok r = true -> json r = Fails e ->
    fetch_fails (Returns r) e
| null_body (r : response) :
    ok r = true -> json r = Returns JsonNull ->
    fetch_fails (Returns r) (TypeError "Cannot read properties of null").

(** What [fetchWeather] logs and writes for each answer of the network:
    the error it logs, if any, and the texts of the two slots. *)
Definition weather_rendering (net : answer response)
  : option error * string * string :=
  let failed e := (Some e, "Error fetching weather", "") in
  match net with
  | Fails e => failed e
  | Returns r =>
      if negb (ok r) then failed (Error "Weather request failed")
      else
        match json r with
        | Fails e => failed e
        | Returns JsonNull =>
            failed (TypeError "Cannot read properties of null")
        | Returns (JsonObject None) => (None, "No data available", "")
        | Returns (JsonObject (Some c)) =>
            (None, Num.toString (temperature c) +:+ "°C",
             interpretWeatherCode (weathercode c))
        end
  end.

Definition weather_trace (lat lon : number) (tempElemId descElemId : string)
    (net : answer response) : list effect :=
  let '(err, t, d) := weather_rendering net in
  [Call (Fetch (weather_url lat lon))]
    ++ match err with
       | Some e => [ConsoleError "Error fetching weather:" e]
       | None => []
       end
    ++ [Write tempElemId (SetTextContent t); Write descElemId (SetTextContent d)].

(** The handlers that issue requests to the notes store. *)
Definition is_note_listener (h : listener) : bool :=
  match h with
  | DeleteNoteClick _ | SaveNoteClick _ => true
  | HandleAuthClick | HandleSignoutClick => false
  end.

(** The create and delete requests of the notes store. *)
Definition is_note_request (ev : effect) : bool :=
  match ev with
  | Call (AddDoc _ _) | Call (DeleteDoc _ _) => true
  | _ => false
  end.

(** Every click listener in a subtree. *)
Fixpoint node_listeners (n : node) : list listener :=
  match n with
  | Text _ => []
  | Elem _ cs ls => ls ++ flat_map node_listeners cs
  end.

Definition element_listeners (e : element) : list listener :=
  own_listeners e ++ flat_map node_listeners (childNodes e).

(** A page on which the notes component is not wired and has asked
    nothing of the store: no snapshot listener is registered, no element
    carries a handler of the notes component, and the trace holds no
    create or delete request. *)
Definition quiet (σ : page) : Prop :=
  snapshotListeners σ = []
  /\ (forall id e, document σ !! id = Some e ->
        Forall (fun h => is_note_listener h = false) (element_listeners e))
  /\ Forall (fun ev => is_note_request ev = false) (trace σ).

(** A mutation that installs no handler of the notes component. *)
Definition quiet_mutation (m : mutation) : Prop :=
  match m with
  | SetOnclick h | AddClickListener h => is_note_listener h = false
  | AppendChild c => Forall (fun h => is_note_listener h = false) (node_listeners c)
  | _ => True
  end.

(** A computation that keeps a quiet page quiet. *)
Definition safe {A : Type} (m : js A) : Prop :=
  forall σ, quiet σ -> quiet (fst (m σ)).

(** An element with its children replaced. *)
Definition with_children (cs : list node) (e : element) : element :=
  Element cs (value e) (disabled e) (display e) (clickListeners e) (onclick e).

(** The children of an element of the page. *)
Definition children_of (id : string) (σ : page) : option (list node) :=
  childNodes <$> document σ !! id.

(** An element as the markup of a page declares it: empty, enabled,
    without handlers. *)
Definition blank : element := Element [] "" false "" [] None.

(** A page with the elements the script looks up, before the script has
    run. *)
Definition sample_page : page :=
  Page None
    (list_to_map
       [ ("aarhus-temp", blank); ("aarhus-desc", blank);
         ("newton-temp", blank); ("newton-desc", blank);
         ("notes-list", blank); ("note-input", blank); ("save-note", blank);
         ("authorize_button", blank); ("signout_button", blank);
         ("events", blank) ])
    [] [] [].

(** The user types into the note input. *)
Definition typed (v : string) (σ : page) : page :=
  Page (db σ) (alter (apply_mutation (SetValue v)) "note-input" (document σ))
    (snapshotListeners σ) (signinListeners σ) (trace σ).

(** The sample page once the store has failed to initialise. *)
Definition unconfigured_page : page :=
  fst (initFirebase (Fails (Failure "invalid configuration")) (Returns "firestore")
         sample_page).

(** The sample page with the store initialised and a note typed in. *)
Definition enabled_page : page :=
  Page (Some "firestore") (document (typed "Buy milk" sample_page)) [] [] [].


(** A listing of eleven events, one more than the request asks for. *)
Definition eleven_events : list calendar_event :=
  replicate 11
    (CalendarEvent (EventStart (JsString "2026-11-02T09:00:00Z") JsUndefined)
       (JsString "Stand-up")).

(** A browser whose locale prints a date as the string it was built
    from, and the start of the epoch for [null]. *)
Definition sample_host : Host :=
  {| toLocaleString := fun when =>
       match when with
       | JsString s => s
       | JsNull => "1/1/1970, 12:00:00 AM"
       | JsUndefined => "Invalid Date"
       end |}.

(** ** The bootstrap (script.js, lines 321-330) *)

(** The part of [fetchWeather] that runs at the call: an [async]
    function runs up to its first [await], here the call of [fetch]. *)
Definition fetchWeather_request (lat lon : number) : js unit :=
  emit (Call (Fetch (weather_url lat lon))).

(** The rest of [fetchWeather], run when the fetch settles. *)
Definition fetchWeather_settled (tempElemId descElemId : string)
    (net : answer response) : js unit :=
  try_catch
    (response ← await net;
     if negb (ok response) then throw (Error "Weather request failed")
     else
       data ← await (json response);
       current ← get_current_weather data;
       match current with
       | None =>
           t ← getElementById tempElemId;
           mutate t (SetTextContent "No data available") ;;
           d ← getElementById descElemId;
           mutate d (SetTextContent "")
       | Some current =>
           let temperature := temperature current in
           let code := weathercode current in
           t ← getElementById tempElemId;
           mutate t (SetTextContent (Num.toString temperature +:+ "°C")) ;;
           d ← getElementById descElemId;
           mutate d (SetTextContent (interpretWeatherCode code))
       end)
    (fun error =>
       console_error "Error fetching weather:" error ;;
       t ← getElementById tempElemId;
       mutate t (SetTextContent "Error fetching weather") ;;
       d ← getElementById descElemId;
       mutate d (SetTextContent "")).

(** The callback handed to [gapi.load]. *)
Inductive loader_callback :=
| InitClient.

(** The page with what the bootstrap leaves pending besides it: the
    loads asked of the Google API loader, and the calls of
    [fetchWeather] suspended at their fetch, each with the two slots it
    will write. *)
Record window := Window {
  the_page : page;
  gapiLoads : list (string * loader_callback);
  suspended : list (string * string)
}.

(** A call [fetchWeather(lat, lon, tempElemId, descElemId)] that is not
    awaited: the request is issued and the call is suspended. *)
Definition start_fetchWeather (lat lon : number) (tempElemId descElemId : string)
    (w : window) : window :=
  Window (fst (fetchWeather_request lat lon (the_page w))) (gapiLoads w)
    (suspended w ++ [(tempElemId, descElemId)]).

(** [window.initGoogle]: an exception of [initNotes] leaves the
    function before the weather is fetched. *)
Definition initGoogle (w : window) : window * (error + unit) :=
  let w := Window (the_page w) (gapiLoads w ++ [("client:auth2", InitClient)])
             (suspended w) in
  match initNotes (the_page w) with
  | (σ, inl e) => (Window σ (gapiLoads w) (suspended w), inl e)
  | (σ, inr _) =>
      let w := Window σ (gapiLoads w) (suspended w) in
      let w := start_fetchWeather (Number false 561572 (-4)) (Number false 102107 (-4))
                 "aarhus-temp" "aarhus-desc" w in
      let w := start_fetchWeather (Number false 410582 (-4)) (Number true 747527 (-4))
                 "newton-temp" "newton-desc" w in
      (w, inr tt)
  end.

(** The fetch of the [i]-th suspended call settles: the call resumes on
    the host and is no longer suspended. *)
Definition weather_settles (i : nat) (net : answer response) (w : window) : window :=
  match suspended w !! i with
  | Some (tempElemId, descElemId) =>
      Window (host_run (fetchWeather_settled tempElemId descElemId net) (the_page w))
        (gapiLoads w) (delete i (suspended w))
  | None => w
  end.

(** ** Vocabulary of the further statements *)

(** The elements the handlers of the page look up. *)
Definition required : list string :=
  [ "notes-list"; "note-input"; "authorize_button"; "signout_button"; "events" ].

Definition well_formed (σ : page) : Prop :=
  Forall (fun id => present id σ) required.

(** What no handler of the page undoes: the store handle, the set of
    elements, the listeners registered and the effects so far. *)
Definition steady (σ σ' : page) : Prop :=
  db σ' = db σ
  /\ dom (document σ') = dom (document σ)
  /\ snapshotListeners σ `prefix_of` snapshotListeners σ'
  /\ signinListeners σ `prefix_of` signinListeners σ'
  /\ trace σ `prefix_of` trace σ'.

Definition is_uncaught (ev : effect) : bool :=
  match ev with
  | Uncaught _ => true
  | _ => false
  end.

Definition is_signin_call (ev : effect) : bool :=
  match ev with
  | Call SignIn | Call SignOut => true
  | _ => false
  end.

(** Every uncaught error of the trace can be matched with a call of
    sign-in or sign-out made before it, each call with one error at
    most; [pending] counts the calls not matched so far. *)
Fixpoint uncaught_matched (pending : nat) (tr : list effect) : bool :=
  match tr with
  | [] => true
  | ev :: rest =>
      if is_signin_call ev then uncaught_matched (S pending) rest
      else if is_uncaught ev then
        match pending with
        | O => false
        | S pending' => uncaught_matched pending' rest
        end
      else uncaught_matched pending rest
  end.

(** What can happen once [window.initGoogle] has run: an event of the
    page, or the fetch of a suspended weather call settles. *)
Inductive window_event :=
| PageEvent (ev : page_event)
| WeatherSettled (i : nat) (net : answer response).

Definition window_deliver `{Host} (ev : window_event) (w : window) : window :=
  match ev with
  | PageEvent ev => Window (deliver ev (the_page w)) (gapiLoads w) (suspended w)
  | WeatherSettled i net => weather_settles i net w
  end.

Definition window_deliver_all `{Host} (evs : list window_event) (w : window) : window :=
  fold_left (fun w ev => window_deliver ev w) evs w.

(** The page has every element the script looks up: those of the
    handlers, and the two slots of each weather call still suspended. *)
Definition complete (w : window) : Prop :=
  well_formed (the_page w)
  /\ Forall (fun slots => present (fst slots) (the_page w)
                          /\ present (snd slots) (the_page w))
       (suspended w).

(** The page [σ'] continues [σ]: the effects added hold no uncaught
    error but those of [accepted], each matched with a call of sign-in
    or sign-out of its own. *)
Definition continues (accepted : error -> Prop) (σ σ' : page) : Prop :=
  exists added,
    trace σ' = (trace σ ++ added)%list
    /\ (forall pending, uncaught_matched pending added = true)
    /\ forall e, In (Uncaught e) added -> accepted e.

(** An element keeps everything but its children. *)
Definition same_but_children (e e' : element) : Prop :=
  value e' = value e /\ disabled e' = disabled e /\ display e' = display e
  /\ clickListeners e' = clickListeners e /\ onclick e' = onclick e.

(** The effects that are calls into a service. *)
Definition is_call (ev : effect) : bool :=
  match ev with
  | Call _ => true
  | _ => false
  end.

(** What a listing that has arrived leaves in the list of events. *)
Definition events_rendering `{Host} (result : events_result) : list node :=
  match items result with
  | None => []
  | Some [] => [placeholder_item]
  | Some events => map event_item events
  end.

(** A computation that undoes nothing and reports no uncaught error
    itself: only the host does, for what a handler lets out. *)
Definition orderly {A : Type} (m : js A) : Prop :=
  forall σ,
    steady σ (fst (m σ))
    /\ exists new,
         trace (fst (m σ)) = (trace σ ++ new)%list
         /\ Forall (fun ev => is_uncaught ev = false) new.

(** * Properties *)

Arguments Num.toString : simpl never.
Arguments interpretWeatherCode : simpl never.
Arguments weather_url : simpl never.
Arguments element_ref : simpl never.
Arguments Str.trim : simpl never.

(** ** Reasoning about computations *)

Lemma element_ref_present (id : string) (σ : page) :
  present id σ -> element_ref (document σ) id = Some id.
Proof. intros [e He]. unfold element_ref. now rewrite He. Qed.

Lemma element_ref_alter (f : element -> element) (i j : string)
    (doc : gmap string element) :
  element_ref (alter f i doc) j = element_ref doc j.
Proof.
  unfold element_ref. rewrite lookup_alter.
  case_decide; subst; destruct (doc !! j); reflexivity.
Qed.

(** Runs a computation symbolically: unfolds the monad, resolves the
    element look-ups and flattens the trace. *)
Ltac js_run :=
  unfold then_catch, try_catch, call, console_error, console_warn, emit, await,
    getElementById, mutate, get_value, throw, mbind, mret, js_bind, js_ret;
  repeat (progress (cbn; rewrite ?element_ref_alter));
  rewrite <- ?app_assoc; cbn [app].

Lemma append_empty_r (s : string) : s +:+ "" = s.
Proof.
  induction s as [| c r IH]; [reflexivity |].
  change (String c (r +:+ "") = String c r). now rewrite IH.
Qed.

Lemma textContent_text_nodes (s : string) :
  fold_right (fun c acc => node_textContent c +:+ acc) "" (text_nodes s) = s.
Proof.
  destruct s as [| c r]; [reflexivity |].
  cbn [text_nodes Str.truthy fold_right node_textContent]. apply append_empty_r.
Qed.

(** The text of a slot after the two writes of [fetchWeather]. *)
Lemma slot_text_second (doc : gmap string element) (i j s t : string) :
  is_Some (doc !! j) ->
  textContent <$>
    alter (apply_mutation (SetTextContent t)) j
      (alter (apply_mutation (SetTextContent s)) i doc) !! j = Some t.
Proof.
  intros [e He]. rewrite lookup_alter_eq, lookup_alter.
  case_decide; subst; rewrite He; cbn; f_equal; apply textContent_text_nodes.
Qed.

Lemma slot_text_first (doc : gmap string element) (i j s t : string) :
  is_Some (doc !! i) -> i <> j ->
  textContent <$>
    alter (apply_mutation (SetTextContent t)) j
      (alter (apply_mutation (SetTextContent s)) i doc) !! i = Some s.
Proof.
  intros [e He] Hne. rewrite lookup_alter_ne by congruence.
  rewrite lookup_alter_eq, He. cbn. f_equal. apply textContent_text_nodes.
Qed.

(** ** Strings and numbers *)

Example trim_examples :
  Str.trim ("  Buy milk " +:+ Str.of_bytes [10%nat]) = "Buy milk"
  /\ Str.trim "   " = ""
  /\ Str.trim (Str.of_bytes [194; 160; 9; 226; 128; 168]%nat) = ""
  /\ Str.trim "a b" = "a b".
Proof. vm_compute. repeat split. Qed.

Example toString_examples :
  Num.toString (Number false 214 (-1)) = "21.4"
  /\ Num.toString (Number false 561572 (-4)) = "56.1572"
  /\ Num.toString (Number true 747527 (-4)) = "-74.7527"
  /\ Num.toString (Number true 5 0) = "-5"
  /\ Num.toString (Number false 0 0) = "0"
  /\ Num.toString (Number false 150 (-1)) = "15"
  /\ Num.toString (Number false 5 (-7)) = "5e-7"
  /\ Num.toString (Number false 123 19) = "1.23e+21".
Proof. vm_compute. repeat split. Qed.

(** ** Weather codes *)

(** No description of the table is the empty string, so [||] never
    replaces one. *)
Lemma weatherCodeMap_truthy (code : Z) (s : string) :
  weatherCodeMap !! code = Some s -> Str.truthy s = true.
Proof.
  unfold weatherCodeMap. intros H%elem_of_list_to_map_2.
  repeat (apply elem_of_cons in H as [H | H];
          [injection H as -> ->; reflexivity |]).
  now apply elem_of_nil in H.
Qed.

(** The table, read through the interpreter. *)
Lemma interpretWeatherCode_entries :
  map interpretWeatherCode
    [0; 1; 2; 3; 45; 48; 51; 53; 55; 56; 57; 61; 63; 65; 66; 67; 71; 73; 75;
     77; 80; 81; 82; 85; 86; 95; 96; 99] =
  [ "Clear sky"; "Mainly clear"; "Partly cloudy"; "Overcast"; "Fog";
    "Depositing rime fog"; "Light drizzle"; "Moderate drizzle";
    "Dense drizzle"; "Light freezing drizzle"; "Dense freezing drizzle";
    "Slight rain"; "Moderate rain"; "Heavy rain"; "Light freezing rain";
    "Heavy freezing rain"; "Slight snowfall"; "Moderate snowfall";
    "Heavy snowfall"; "Snow grains"; "Slight rain showers";
    "Moderate rain showers"; "Violent rain showers"; "Slight snow showers";
    "Heavy snow showers"; "Thunderstorm"; "Thunderstorm with slight hail";
    "Thunderstorm with heavy hail" ].
Proof. vm_compute. reflexivity. Qed.

(** C1.  For every integer code that is a key of the weather-code table,
    [interpretWeatherCode] returns exactly the string the table maps it
    to; for every integer code that is not a key, such as 13, -1 and
    9999, it returns "Unknown conditions".  The function is total. *)
Theorem interpretWeatherCode_correct (code : Z) :
  (forall s, weatherCodeMap !! code = Some s -> interpretWeatherCode code = s)
  /\ (weatherCodeMap !! code = None ->
      interpretWeatherCode code = "Unknown conditions")
  /\ interpretWeatherCode 13 = "Unknown conditions"
  /\ interpretWeatherCode (-1) = "Unknown conditions"
  /\ interpretWeatherCode 9999 = "Unknown conditions".
Proof.
  unfold interpretWeatherCode. repeat split.
  - intros s Hs. rewrite Hs. cbn. now rewrite (weatherCodeMap_truthy _ _ Hs).
  - intros Hn. now rewrite Hn.
Qed.

Lemma interpretWeatherCode_correct_witness :
  interpretWeatherCode 3 = "Overcast"
  /\ interpretWeatherCode 13 = "Unknown conditions".
Proof.
  split.
  - apply (proj1 (interpretWeatherCode_correct 3)). vm_compute. reflexivity.
  - apply (proj1 (proj2 (interpretWeatherCode_correct 13))). vm_compute. reflexivity.
Defined.

(** ** Weather *)

Section Weather.

Variables (lat lon : number) (tempElemId descElemId : string).

(** [fetchWeather] in one equation: on a page that has both slots it
    completes, whatever the network answers. *)
Lemma fetchWeather_run (net : answer response) (σ : page) :
  present tempElemId σ ->
  present descElemId σ ->
  fetchWeather lat lon tempElemId descElemId net σ =
    (let '(_, t, d) := weather_rendering net in
     Page (db σ)
       (alter (apply_mutation (SetTextContent d)) descElemId
          (alter (apply_mutation (SetTextContent t)) tempElemId (document σ)))
       (snapshotListeners σ) (signinListeners σ)
       (trace σ ++ weather_trace lat lon tempElemId descElemId net),
     inr tt).
Proof.
  intros Ht%element_ref_present Hd%element_ref_present.
  unfold fetchWeather, weather_trace, weather_rendering, get_current_weather.
  destruct net as [r | e]; js_run;
    [destruct (ok r); js_run; [destruct (json r) as [[| [c |]] | e]; js_run |] |].
  all: rewrite ?Ht; js_run; rewrite ?Hd; js_run.
  all: reflexivity.
Qed.

(** C2.  When the body of the response holds the current conditions,
    [fetchWeather] writes the temperature followed by "°C" into the
    temperature slot and the interpretation of the weather code into
    the description slot; temperature 21.4 with code 3 renders "21.4°C"
    and "Overcast". *)
Theorem fetchWeather_renders_conditions
    (r : response) (c : current_weather_t) (σ : page) :
  present tempElemId σ -> present descElemId σ -> tempElemId <> descElemId ->
  ok r = true -> json r = Returns (JsonObject (Some c)) ->
  exists σ',
    fetchWeather lat lon tempElemId descElemId (Returns r) σ = (σ', inr tt)
    /\ trace σ' =
         (trace σ ++
          [ Call (Fetch (weather_url lat lon));
            Write tempElemId
              (SetTextContent (Num.toString (temperature c) +:+ "°C"));
            Write descElemId
              (SetTextContent (interpretWeatherCode (weathercode c))) ])%list
    /\ slot_text tempElemId σ' = Some (Num.toString (temperature c) +:+ "°C")
    /\ slot_text descElemId σ' = Some (interpretWeatherCode (weathercode c))
    /\ (temperature c = Number false 214 (-1) -> weathercode c = 3 ->
        slot_text tempElemId σ' = Some "21.4°C"
        /\ slot_text descElemId σ' = Some "Overcast").
Proof.
  intros Ht Hd Hne Hok Hjson.
  rewrite (fetchWeather_run _ _ Ht Hd). unfold weather_trace.
  cbn. rewrite Hok, Hjson. cbn.
  eexists. split; [reflexivity |]. split; [reflexivity |]. unfold slot_text. cbn.
  rewrite (slot_text_first _ _ _ _ _ Ht Hne), (slot_text_second _ _ _ _ _ Hd).
  split; [reflexivity |]. split; [reflexivity |].
  intros -> ->. split; vm_compute; reflexivity.
Qed.

(** C3.  When the fetch ends in a status that is not a success, or in an
    exception of the network or of parsing, [fetchWeather] logs the
    error, writes "Error fetching weather" into the temperature slot and
    the empty string into the description slot, and completes without
    raising. *)
Theorem fetchWeather_reports_failure
    (net : answer response) (e : error) (σ : page) :
  present tempElemId σ -> present descElemId σ -> tempElemId <> descElemId ->
  fetch_fails net e ->
  exists σ',
    fetchWeather lat lon tempElemId descElemId net σ = (σ', inr tt)
    /\ slot_text tempElemId σ' = Some "Error fetching weather"
    /\ slot_text descElemId σ' = Some ""
    /\ trace σ' =
         (trace σ ++
          [ Call (Fetch (weather_url lat lon));
            ConsoleError "Error fetching weather:" e;
            Write tempElemId (SetTextContent "Error fetching weather");
            Write descElemId (SetTextContent "") ])%list.
Proof.
  intros Ht Hd Hne Hfail.
  rewrite (fetchWeather_run _ _ Ht Hd). unfold weather_trace.
  assert (Hr : weather_rendering net = (Some e, "Error fetching weather", "")).
  { destruct Hfail as [e | r Hok | r e Hok Hjson | r Hok Hjson]; cbn;
      rewrite ?Hok, ?Hjson; reflexivity. }
  rewrite Hr. eexists. split; [reflexivity |]. unfold slot_text. cbn.
  rewrite (slot_text_first _ _ _ _ _ Ht Hne), (slot_text_second _ _ _ _ _ Hd).
  repeat split.
Qed.

(** C10.  On every path of [fetchWeather], that is for every answer of
    the network, each of the two slots is written exactly once, and what
    the slots show afterwards does not depend on what they showed
    before. *)
Theorem fetchWeather_writes_each_slot_once (net : answer response) (σ : page) :
  present tempElemId σ -> present descElemId σ -> tempElemId <> descElemId ->
  exists σ' written,
    fetchWeather lat lon tempElemId descElemId net σ = (σ', inr tt)
    /\ trace σ' = (trace σ ++ written)%list
    /\ text_writes tempElemId written = 1%nat
    /\ text_writes descElemId written = 1%nat
    /\ forall σ0,
         present tempElemId σ0 -> present descElemId σ0 ->
         let σ0' := fst (fetchWeather lat lon tempElemId descElemId net σ0) in
         slot_text tempElemId σ0' = slot_text tempElemId σ'
         /\ slot_text descElemId σ0' = slot_text descElemId σ'.
Proof.
  intros Ht Hd Hne.
  rewrite (fetchWeather_run _ _ Ht Hd).
  destruct (weather_rendering net) as [[err t] d] eqn:Hr.
  exists (Page (db σ)
            (alter (apply_mutation (SetTextContent d)) descElemId
               (alter (apply_mutation (SetTextContent t)) tempElemId (document σ)))
            (snapshotListeners σ) (signinListeners σ)
            (trace σ ++ weather_trace lat lon tempElemId descElemId net)),
    (weather_trace lat lon tempElemId descElemId net).
  assert (Htd : String.eqb tempElemId descElemId = false)
    by now apply String.eqb_neq.
  assert (Hdt : String.eqb descElemId tempElemId = false)
    by (apply String.eqb_neq; congruence).
  split; [reflexivity |]. split; [reflexivity |].
  unfold weather_trace, text_writes. rewrite Hr.
  split; [| split].
  - destruct err; cbn; rewrite String.eqb_refl, Htd; reflexivity.
  - destruct err; cbn; rewrite String.eqb_refl, Hdt; reflexivity.
  - intros σ0 Ht0 Hd0. rewrite (fetchWeather_run _ _ Ht0 Hd0), Hr.
    unfold slot_text. cbn.
    rewrite !(slot_text_first _ _ _ _ _ Ht0 Hne), !(slot_text_second _ _ _ _ _ Hd0).
    now rewrite (slot_text_first _ _ _ _ _ Ht Hne), (slot_text_second _ _ _ _ _ Hd).
Qed.

End Weather.

(** The two slots of the first location on the sample page. *)
Lemma sample_page_aarhus :
  present "aarhus-temp" sample_page /\ present "aarhus-desc" sample_page
  /\ "aarhus-temp" <> "aarhus-desc".
Proof. repeat split; [eexists; reflexivity .. | discriminate]. Qed.

Lemma fetchWeather_renders_conditions_witness :
  exists σ',
    fetchWeather (Number false 561572 (-4)) (Number false 102107 (-4))
      "aarhus-temp" "aarhus-desc"
      (Returns (Response true
         (Returns (JsonObject (Some (CurrentWeather (Number false 214 (-1)) 3))))))
      sample_page = (σ', inr tt)
    /\ slot_text "aarhus-temp" σ' = Some "21.4°C"
    /\ slot_text "aarhus-desc" σ' = Some "Overcast".
Proof.
  destruct sample_page_aarhus as (Ht & Hd & Hne).
  destruct (fetchWeather_renders_conditions
              (Number false 561572 (-4)) (Number false 102107 (-4))
              "aarhus-temp" "aarhus-desc"
              (Response true
                 (Returns (JsonObject (Some (CurrentWeather (Number false 214 (-1)) 3)))))
              (CurrentWeather (Number false 214 (-1)) 3)
              sample_page Ht Hd Hne eq_refl eq_refl)
    as (σ' & Hrun & _ & _ & _ & Hex).
  exists σ'. split; [exact Hrun |]. apply Hex; reflexivity.
Defined.

Lemma fetchWeather_reports_failure_witness :
  exists σ',
    fetchWeather (Number false 561572 (-4)) (Number false 102107 (-4))
      "aarhus-temp" "aarhus-desc"
      (Returns (Response false (Returns JsonNull))) sample_page = (σ', inr tt)
    /\ slot_text "aarhus-temp" σ' = Some "Error fetching weather"
    /\ slot_text "aarhus-desc" σ' = Some ""
    /\ trace σ' =
         (trace sample_page ++
          [ Call (Fetch (weather_url (Number false 561572 (-4))
                           (Number false 102107 (-4))));
            ConsoleError "Error fetching weather:" (Error "Weather request failed");
            Write "aarhus-temp" (SetTextContent "Error fetching weather");
            Write "aarhus-desc" (SetTextContent "") ])%list.
Proof.
  destruct sample_page_aarhus as (Ht & Hd & Hne).
  apply (fetchWeather_reports_failure
           (Number false 561572 (-4)) (Number false 102107 (-4))
           "aarhus-temp" "aarhus-desc"
           (Returns (Response false (Returns JsonNull)))
           (Error "Weather request failed") sample_page Ht Hd Hne).
  apply bad_status. reflexivity.
Defined.

Lemma fetchWeather_writes_each_slot_once_witness :
  exists σ' written,
    fetchWeather (Number false 410582 (-4)) (Number true 747527 (-4))
      "aarhus-temp" "aarhus-desc" (Fails (Failure "Failed to fetch"))
      sample_page = (σ', inr tt)
    /\ trace σ' = (trace sample_page ++ written)%list
    /\ text_writes "aarhus-temp" written = 1%nat
    /\ text_writes "aarhus-desc" written = 1%nat.
Proof.
  destruct sample_page_aarhus as (Ht & Hd & Hne).
  destruct (fetchWeather_writes_each_slot_once
              (Number false 410582 (-4)) (Number true 747527 (-4))
              "aarhus-temp" "aarhus-desc" (Fails (Failure "Failed to fetch"))
              sample_page Ht Hd Hne)
    as (σ' & written & Hrun & Htr & H1 & H2 & _).
  exists σ', written. auto.
Defined.

(** ** Lists built with [forEach] *)

(** Appending one child per element of a list, as the two renderers
    do. *)
Lemma forEach_AppendChild {A : Type} (f : A -> node) (id : string) (l : list A) :
  forall (σ : page) (e : element),
    document σ !! id = Some e ->
    exists σ',
      forEach l (fun x => mutate (Some id) (AppendChild (f x))) σ = (σ', inr tt)
      /\ document σ' !! id = Some (with_children (childNodes e ++ map f l) e)
      /\ trace σ' = (trace σ ++ map (fun x => Write id (AppendChild (f x))) l)%list.
Proof.
  induction l as [| x l IH]; intros σ e He.
  - exists σ. cbn. rewrite !app_nil_r. destruct e. auto.
  - cbn [forEach]. unfold mbind, js_bind. cbn [mutate].
    set (σ1 := Page _ _ _ _ _).
    destruct (IH σ1 (apply_mutation (AppendChild (f x)) e)) as (σ' & Hrun & Hdoc & Htr).
    { subst σ1. cbn. now rewrite lookup_alter_eq, He. }
    exists σ'. split; [exact Hrun |]. rewrite Hdoc, Htr. subst σ1. cbn.
    rewrite <- !app_assoc. auto.
Qed.

(** ** Notes *)

(** C6.  On every snapshot [renderNotes] rebuilds the children of the
    notes list from the snapshot alone: one list item per document, in
    the order of the snapshot (none for an empty snapshot); each item
    shows the text of its document and carries a delete button whose
    click handler issues the delete request for the identifier of that
    document. *)
Theorem renderNotes_rebuilds_list (snapshot : list docSnap) (σ : page) :
  present "notes-list" σ ->
  exists σ',
    renderNotes snapshot σ = (σ', inr tt)
    /\ children_of "notes-list" σ' = Some (map note_item snapshot)
    /\ (snapshot = [] -> children_of "notes-list" σ' = Some [])
    /\ length (map note_item snapshot) = length snapshot
    /\ forall (i : nat) (d : docSnap),
         snapshot !! i = Some d ->
         map note_item snapshot !! i = Some (note_item d)
         /\ note_item d =
              Elem "li"
                (text_nodes (doc_text d) ++
                 [Elem "button" [Text "Delete"] [DeleteNoteClick (doc_id d)]])
                []
         /\ node_click_path [length (text_nodes (doc_text d))] (note_item d) =
              [DeleteNoteClick (doc_id d)]
         /\ forall (ans : answer unit) (σ0 : page),
              exists σ0',
                run_listener (DeleteNoteClick (doc_id d)) ans σ0 = (σ0', inr tt)
                /\ trace σ0' =
                     (trace σ0 ++
                      Call (DeleteDoc "notes" (doc_id d)) ::
                      match ans with
                      | Returns _ => []
                      | Fails e => [ConsoleError "Error deleting note:" e]
                      end)%list.
Proof.
  intros Hp. pose proof (element_ref_present _ _ Hp) as Href.
  destruct Hp as [ul Hul].
  unfold renderNotes, mbind, js_bind, getElementById. rewrite Href. cbn [mutate].
  set (σ1 := Page _ _ _ _ _).
  destruct (forEach_AppendChild note_item "notes-list" snapshot σ1
              (apply_mutation ClearInnerHTML ul)) as (σ' & Hrun & Hdoc & _).
  { subst σ1. cbn. now rewrite lookup_alter_eq, Hul. }
  exists σ'. split; [exact Hrun |].
  assert (Hch : children_of "notes-list" σ' = Some (map note_item snapshot)).
  { unfold children_of. now rewrite Hdoc. }
  split; [exact Hch |]. split; [now intros -> |].
  split; [apply length_map |].
  intros i d Hi. split; [now rewrite list_lookup_fmap, Hi |].
  split; [reflexivity |]. split.
  - unfold note_item. cbn. rewrite list_lookup_middle by reflexivity. reflexivity.
  - intros ans σ0. unfold run_listener, deleteNoteClick.
    destruct ans as [[] | e]; js_run; eexists; split; reflexivity.
Qed.

Lemma renderNotes_rebuilds_list_witness :
  exists σ',
    renderNotes [DocSnap "a1" "Buy milk"; DocSnap "b2" ""] sample_page = (σ', inr tt)
    /\ children_of "notes-list" σ' =
         Some [ Elem "li" [Text "Buy milk"; Elem "button" [Text "Delete"] [DeleteNoteClick "a1"]] [];
                Elem "li" [Elem "button" [Text "Delete"] [DeleteNoteClick "b2"]] [] ].
Proof.
  destruct (renderNotes_rebuilds_list
              [DocSnap "a1" "Buy milk"; DocSnap "b2" ""] sample_page)
    as (σ' & Hrun & Hch & _).
  - eexists. reflexivity.
  - exists σ'. split; [exact Hrun | exact Hch].
Defined.

(** With the store initialised the component is live: a click on the
    save button creates the note typed in, a snapshot renders it, and a
    click on its delete button asks for its deletion. *)
Example notes_enabled_run :
  trace (@deliver_all sample_host
           [ Click "save-note" [] (Returns tt);
             SnapshotDelivered "notes" [DocSnap "a1" "Buy milk"];
             Click "notes-list" [0%nat; 1%nat] (Fails (Failure "offline")) ]
           (host_run initNotes enabled_page))
  = [ Call (OnSnapshot "notes" RenderNotes);
      Write "save-note" (AddClickListener (SaveNoteClick "notes"));
      Call (AddDoc "notes" "Buy milk");
      Write "note-input" (SetValue "");
      Write "notes-list" ClearInnerHTML;
      Write "notes-list"
        (AppendChild
           (Elem "li"
              [Text "Buy milk"; Elem "button" [Text "Delete"] [DeleteNoteClick "a1"]]
              []));
      Call (DeleteDoc "notes" "a1");
      ConsoleError "Error deleting note:" (Failure "offline") ].
Proof. vm_compute. reflexivity. Qed.

(** C5.  The save handler trims the text of the input.  When nothing is
    left it changes nothing: no request, the input as it was.  Otherwise
    it issues exactly one create request, with the trimmed text as the
    text of the note; it clears the input when the request succeeds, and
    when the request fails it logs the error and leaves the input as it
    was. *)
Theorem saveNoteClick_submission (notesCol : string) (σ : page) (input : element) :
  document σ !! "note-input" = Some input ->
  let text := Str.trim (value input) in
  (text = "" -> forall ans, saveNoteClick notesCol ans σ = (σ, inr tt))
  /\ (text <> "" ->
      exists σ',
        saveNoteClick notesCol (Returns tt) σ = (σ', inr tt)
        /\ trace σ' =
             (trace σ ++
              [Call (AddDoc notesCol text); Write "note-input" (SetValue "")])%list
        /\ value <$> document σ' !! "note-input" = Some "")
  /\ (text <> "" ->
      forall e,
        saveNoteClick notesCol (Fails e) σ =
          (Page (db σ) (document σ) (snapshotListeners σ) (signinListeners σ)
             (trace σ ++
              [Call (AddDoc notesCol text); ConsoleError "Error adding note:" e]),
           inr tt)).
Proof.
  intros Hin text.
  assert (Href : element_ref (document σ) "note-input" = Some "note-input").
  { apply element_ref_present. eexists. exact Hin. }
  unfold saveNoteClick. repeat split.
  - intros Hempty ans. js_run. rewrite Href. cbn. rewrite Hin. cbn.
    fold text. now rewrite Hempty.
  - intros Hne. js_run. rewrite Href. cbn. rewrite Hin. cbn. fold text.
    destruct text as [| c r] eqn:Ht; [congruence |]. js_run.
    eexists. split; [reflexivity |]. split; [reflexivity |].
    cbn. now rewrite lookup_alter_eq, Hin.
  - intros Hne e. js_run. rewrite Href. cbn. rewrite Hin. cbn. fold text.
    destruct text as [| c r] eqn:Ht; [congruence |]. js_run. reflexivity.
Qed.

Lemma saveNoteClick_submission_witness :
  exists σ',
    saveNoteClick "notes" (Returns tt) (typed "Buy milk" sample_page) = (σ', inr tt)
    /\ trace σ' =
         [Call (AddDoc "notes" "Buy milk"); Write "note-input" (SetValue "")]
    /\ value <$> document σ' !! "note-input" = Some "".
Proof.
  apply (proj1 (proj2 (saveNoteClick_submission "notes"
                         (typed "Buy milk" sample_page)
                         (apply_mutation (SetValue "Buy milk") blank)
                         eq_refl))).
  vm_compute. discriminate.
Defined.

(** A note of blanks only: nothing is sent and the input keeps them. *)
Example saveNoteClick_blank (ans : answer unit) :
  saveNoteClick "notes" ans (typed "   " sample_page)
  = (typed "   " sample_page, inr tt).
Proof. destruct ans; vm_compute; reflexivity. Qed.

(** ** The notes component when the store is missing *)

Lemma quiet_trace (σ : page) (evs : list effect) :
  quiet σ ->
  Forall (fun ev => is_note_request ev = false) evs ->
  quiet (Page (db σ) (document σ) (snapshotListeners σ) (signinListeners σ)
           (trace σ ++ evs)).
Proof.
  intros (Hs & Hd & Ht) Hevs. repeat split; cbn; auto.
  apply Forall_app; auto.
Qed.

Lemma safe_ret {A : Type} (a : A) : safe (mret a).
Proof. intros σ Hq. exact Hq. Qed.

Lemma safe_throw {A : Type} (e : error) : safe (@throw A e).
Proof. intros σ Hq. exact Hq. Qed.

Lemma safe_bind {A B : Type} (m : js A) (f : A -> js B) :
  safe m -> (forall a, safe (f a)) -> safe (m ≫= f).
Proof.
  intros Hm Hf σ Hq. unfold mbind, js_bind.
  specialize (Hm σ Hq). destruct (m σ) as [σ1 [e | a]]; cbn in *; auto.
  now apply Hf.
Qed.

Lemma safe_try_catch {A : Type} (body : js A) (handler : error -> js A) :
  safe body -> (forall e, safe (handler e)) -> safe (try_catch body handler).
Proof.
  intros Hm Hh σ Hq. unfold try_catch.
  specialize (Hm σ Hq). destruct (body σ) as [σ1 [e | a]]; cbn in *; auto.
  now apply Hh.
Qed.

Lemma safe_emit (ev : effect) : is_note_request ev = false -> safe (emit ev).
Proof. intros Hev σ Hq. apply quiet_trace; auto. Qed.

Lemma safe_await {A : Type} (ans : answer A) : safe (await ans).
Proof. intros σ Hq. destruct ans; exact Hq. Qed.

Lemma safe_call {A : Type} (r : request) (ans : answer A) :
  is_note_request (Call r) = false -> safe (call r ans).
Proof.
  intros Hr. apply safe_bind; [now apply safe_emit | intros _; apply safe_await].
Qed.

Lemma safe_getElementById (id : string) : safe (getElementById id).
Proof. intros σ Hq. exact Hq. Qed.

Lemma quiet_apply_mutation (m : mutation) (e : element) :
  quiet_mutation m ->
  Forall (fun h => is_note_listener h = false) (element_listeners e) ->
  Forall (fun h => is_note_listener h = false)
    (element_listeners (apply_mutation m e)).
Proof.
  unfold element_listeners, own_listeners.
  intros Hm [Hown Hch]%Forall_app. apply Forall_app in Hown as [Hcl Hon].
  destruct m; cbn in *; rewrite ?flat_map_app; cbn; rewrite ?app_nil_r;
    repeat (apply Forall_app; split); auto.
  destruct text; cbn; auto.
Qed.

Lemma safe_mutate (target : option string) (m : mutation) :
  quiet_mutation m -> safe (mutate target m).
Proof.
  intros Hm σ (Hs & Hd & Ht). destruct target as [id |]; [| repeat split; auto].
  repeat split; cbn; auto.
  - intros j e [(-> & x & Hx & ->) | (_ & He)]%lookup_alter_Some; eauto.
    apply quiet_apply_mutation; eauto.
  - apply Forall_app; auto.
Qed.

Lemma safe_forEach {A : Type} (l : list A) (f : A -> js unit) :
  (forall x, safe (f x)) -> safe (forEach l f).
Proof.
  intros Hf. induction l as [| x l IH]; cbn [forEach].
  - apply safe_ret.
  - apply safe_bind; auto.
Qed.

Lemma safe_signin_listen (cb : callback) : safe (signin_listen cb).
Proof.
  intros σ (Hs & Hd & Ht). repeat split; cbn; auto. apply Forall_app; auto.
Qed.

(** Discharges [safe] goals along the structure of a computation. *)
Ltac safe_tac :=
  repeat first
    [ apply safe_ret
    | apply safe_throw
    | apply safe_getElementById
    | apply safe_await
    | apply safe_signin_listen
    | apply safe_emit; reflexivity
    | apply safe_call; reflexivity
    | apply safe_mutate; cbn; solve [auto]
    | apply safe_bind; [| intros ?]
    | apply safe_try_catch; [| intros ?]
    | apply safe_forEach; intros ?
    | match goal with
      | |- safe (if ?b then _ else _) => destruct b
      | |- safe (match ?x with _ => _ end) => destruct x
      end ].

Lemma safe_updateSigninStatus (b : bool) (now : string) :
  safe (updateSigninStatus b now).
Proof. unfold updateSigninStatus, listUpcomingEvents. safe_tac. Qed.

Lemma safe_initClient_settled (ans : answer unit) (b : bool) (now : string) :
  safe (initClient_settled ans b now).
Proof.
  unfold initClient_settled, then_catch, console_error. safe_tac.
Qed.

(** A list item holding only text carries no listener. *)
Lemma node_listeners_text_item (s : string) :
  node_listeners (node_setTextContent (createElement "li") s) = [].
Proof. cbn. destruct s; reflexivity. Qed.

Lemma safe_listUpcomingEvents_settled `{Host} (ans : answer events_result) :
  safe (listUpcomingEvents_settled ans).
Proof.
  unfold listUpcomingEvents_settled, listUpcomingEvents_then, then_catch,
    console_error.
  safe_tac.
  apply safe_mutate. unfold quiet_mutation, event_item.
  now rewrite node_listeners_text_item.
Qed.

Lemma safe_run_listener (h : listener) (ans : answer unit) :
  is_note_listener h = false -> safe (run_listener h ans).
Proof.
  destruct h; cbn; try discriminate; intros _;
    unfold handleAuthClick, handleSignoutClick; safe_tac.
Qed.

Lemma quiet_host_run (m : js unit) (σ : page) :
  safe m -> quiet σ -> quiet (host_run m σ).
Proof.
  intros Hm Hq. specialize (Hm σ Hq). unfold host_run.
  destruct (m σ) as [σ1 [e | []]]; cbn in *; auto.
  apply quiet_trace; auto.
Qed.

(** A click runs only listeners that the element or its subtree
    holds. *)
Lemma node_click_path_listeners (path : list nat) :
  forall (n : node) (h : listener),
    h ∈ node_click_path path n -> h ∈ node_listeners n.
Proof.
  induction path as [| i path IH]; intros [s | t cs ls] h Hh; cbn in *;
    try (now apply elem_of_nil in Hh).
  - apply elem_of_app; auto.
  - destruct (cs !! i) as [c |] eqn:Hc; [| now apply elem_of_nil in Hh].
    apply elem_of_app in Hh as [Hh | Hh]; apply elem_of_app; auto.
    right. apply list_elem_of_In, in_flat_map. exists c. split.
    + apply list_elem_of_In. eapply list_elem_of_lookup_2; eauto.
    + apply list_elem_of_In. auto.
Qed.

Lemma click_path_listeners (path : list nat) (e : element) (h : listener) :
  h ∈ click_path path e -> h ∈ element_listeners e.
Proof.
  unfold click_path, element_listeners. destruct path as [| i path]; intros Hh.
  - apply elem_of_app; auto.
  - destruct (childNodes e !! i) as [c |] eqn:Hc; [| now apply elem_of_nil in Hh].
    apply elem_of_app in Hh as [Hh | Hh]; apply elem_of_app; auto.
    right. apply list_elem_of_In, in_flat_map. exists c. split.
    + apply list_elem_of_In. eapply list_elem_of_lookup_2; eauto.
    + apply list_elem_of_In. now apply (node_click_path_listeners path).
Qed.

Lemma quiet_run_listeners (ans : answer unit) (l : list listener) :
  Forall (fun h => is_note_listener h = false) l ->
  forall σ, quiet σ ->
    quiet (fold_left (fun σ h => host_run (run_listener h ans) σ) l σ).
Proof.
  induction 1 as [| h l Hh _ IH]; intros σ Hq; cbn; auto.
  apply IH, quiet_host_run; auto. now apply safe_run_listener.
Qed.

Lemma quiet_deliver `{Host} (ev : page_event) (σ : page) :
  quiet σ -> quiet (deliver ev σ).
Proof.
  intros Hq. destruct ev as [id path ans | col snapshot | b now | | ans b now | ans];
    cbn [deliver].
  - destruct (document σ !! id) as [e |] eqn:He; [| exact Hq].
    apply quiet_run_listeners; [| exact Hq].
    destruct Hq as (_ & Hd & _). specialize (Hd id e He).
    rewrite Forall_forall in Hd |- *. intros h Hh.
    apply Hd. now apply (click_path_listeners path).
  - destruct Hq as (Hs & Hd & Ht). rewrite Hs. cbn. repeat split; auto.
  - generalize (signinListeners σ). intros l. revert σ Hq.
    induction l as [| cb l IH]; intros σ Hq; cbn; auto.
    apply IH, quiet_host_run; auto.
    destruct cb; cbn; try apply safe_ret. apply safe_updateSigninStatus.
  - apply quiet_host_run; auto. unfold initClient. safe_tac.
  - apply quiet_host_run; auto. apply safe_initClient_settled.
  - apply quiet_host_run; auto. apply safe_listUpcomingEvents_settled.
Qed.

Lemma quiet_deliver_all `{Host} (evs : list page_event) :
  forall σ, quiet σ -> quiet (deliver_all evs σ).
Proof.
  unfold deliver_all. induction evs as [| ev evs IH]; intros σ Hq; cbn; auto.
  apply IH, quiet_deliver, Hq.
Qed.

(** When either call of the store initialisation throws, [db] stays
    [undefined], one warning is logged and the page is left as it
    was. *)
Lemma initFirebase_failed (appAns storeAns : answer string) (σ : page) :
  db σ = None ->
  (exists e, appAns = Fails e \/ storeAns = Fails e) ->
  exists σ',
    initFirebase appAns storeAns σ = (σ', inr tt)
    /\ db σ' = None
    /\ document σ' = document σ
    /\ snapshotListeners σ' = snapshotListeners σ
    /\ warnings (trace σ') = S (warnings (trace σ))
    /\ (quiet σ -> quiet σ').
Proof.
  intros Hdb [e He]. unfold initFirebase, set_db, warnings.
  destruct appAns as [app | e1]; [destruct storeAns as [handle | e2] |].
  1: destruct He; discriminate.
  all: js_run; eexists; split; [reflexivity |]; cbn [db document snapshotListeners trace].
  all: do 3 (split; [auto |]); split.
  1, 3: rewrite filter_app, length_app;
    match goal with |- (_ + ?x = _)%nat => change x with 1%nat end; lia.
  all: intros Hq; apply (quiet_trace σ _ Hq); repeat constructor.
Qed.

Lemma quiet_initNotes_disabled (σ : page) :
  db σ = None -> quiet σ -> quiet (fst (initNotes σ)).
Proof.
  intros Hdb Hq. unfold initNotes, get_db.
  unfold mbind at 1, js_bind at 1. rewrite Hdb.
  assert (Hs : safe (saveButton ← getElementById "save-note";
                     mutate saveButton (SetDisabled true) ;;
                     mutate saveButton (SetTextContent "Notes unavailable")))
    by safe_tac.
  exact (Hs σ Hq).
Qed.

(** C8.  When the store failed to initialise ([db] is [undefined]),
    [initNotes] disables the save button and labels it "Notes
    unavailable"; it registers no snapshot listener and attaches no
    click handler, and whatever happens on the page afterwards, no
    create or delete request is ever issued. *)
Theorem initNotes_disabled `{Host} (σ : page) (evs : list page_event) :
  db σ = None -> present "save-note" σ -> quiet σ ->
  exists σ1,
    initNotes σ = (σ1, inr tt)
    /\ disabled <$> document σ1 !! "save-note" = Some true
    /\ slot_text "save-note" σ1 = Some "Notes unavailable"
    /\ trace σ1 =
         (trace σ ++
          [ Write "save-note" (SetDisabled true);
            Write "save-note" (SetTextContent "Notes unavailable") ])%list
    /\ snapshotListeners σ1 = snapshotListeners σ
    /\ snapshotListeners σ1 = []
    /\ clickListeners <$> document σ1 !! "save-note" =
       clickListeners <$> document σ !! "save-note"
    /\ onclick <$> document σ1 !! "save-note" =
       onclick <$> document σ !! "save-note"
    /\ Forall (fun ev => is_note_request ev = false)
         (trace (deliver_all evs σ1)).
Proof.
  intros Hdb Hp Hq. pose proof (element_ref_present _ _ Hp) as Href.
  pose proof (quiet_initNotes_disabled σ Hdb Hq) as Hq1.
  destruct Hp as [button Hb]. revert Hq1.
  unfold initNotes, get_db. js_run. rewrite Hdb. js_run. rewrite Href. js_run.
  intros Hq1. eexists. split; [reflexivity |].
  unfold slot_text. cbn. rewrite !lookup_alter_eq, Hb. cbn.
  repeat split; try apply Hq.
  apply (quiet_deliver_all evs _ Hq1).
Qed.

(** The sample page is quiet. *)
Lemma sample_page_quiet : quiet sample_page.
Proof.
  repeat split; [| constructor].
  intros id e He. apply elem_of_list_to_map_2 in He.
  repeat (apply elem_of_cons in He as [He | He];
          [injection He as -> ->; constructor |]).
  now apply elem_of_nil in He.
Qed.

Lemma unconfigured_page_quiet : quiet unconfigured_page.
Proof.
  destruct (initFirebase_failed (Fails (Failure "invalid configuration"))
              (Returns "firestore") sample_page eq_refl
              (ex_intro _ (Failure "invalid configuration") (or_introl eq_refl)))
    as (σ' & Hrun & _ & _ & _ & _ & Hq).
  unfold unconfigured_page. rewrite Hrun. apply Hq, sample_page_quiet.
Qed.

Lemma initNotes_disabled_witness :
  exists σ1,
    initNotes unconfigured_page = (σ1, inr tt)
    /\ disabled <$> document σ1 !! "save-note" = Some true
    /\ slot_text "save-note" σ1 = Some "Notes unavailable"
    /\ Forall (fun ev => is_note_request ev = false)
         (trace (@deliver_all sample_host
                   [ Click "save-note" [] (Returns tt);
                     SnapshotDelivered "notes" [DocSnap "a1" "Buy milk"];
                     Click "notes-list" [0%nat; 1%nat] (Returns tt) ] σ1)).
Proof.
  destruct (@initNotes_disabled sample_host unconfigured_page
              [ Click "save-note" [] (Returns tt);
                SnapshotDelivered "notes" [DocSnap "a1" "Buy milk"];
                Click "notes-list" [0%nat; 1%nat] (Returns tt) ]
              eq_refl (ex_intro _ blank eq_refl) unconfigured_page_quiet)
    as (σ1 & Hrun & Hdis & Htext & _ & _ & _ & _ & _ & Hnever).
  exists σ1. auto.
Defined.

(** ** Calendar *)






(** ** Responses that lack the expected member *)

(** C4, amended.  A forecast whose body lacks the current conditions is
    treated as no data and not as an error: [fetchWeather] renders "No
    data available" with an empty description, logs nothing and
    completes. *)
Theorem fetchWeather_absent_conditions
    (lat lon : number) (tempElemId descElemId : string) (r : response) (σ : page) :
  present tempElemId σ -> present descElemId σ -> tempElemId <> descElemId ->
  ok r = true -> json r = Returns (JsonObject None) ->
  exists σ',
    fetchWeather lat lon tempElemId descElemId (Returns r) σ = (σ', inr tt)
    /\ slot_text tempElemId σ' = Some "No data available"
    /\ slot_text descElemId σ' = Some ""
    /\ trace σ' =
         (trace σ ++
          [ Call (Fetch (weather_url lat lon));
            Write tempElemId (SetTextContent "No data available");
            Write descElemId (SetTextContent "") ])%list.
Proof.
  intros Ht Hd Hne Hok Hjson.
  rewrite (fetchWeather_run _ _ _ _ _ _ Ht Hd). unfold weather_trace.
  cbn. rewrite Hok, Hjson. cbn.
  eexists. split; [reflexivity |]. unfold slot_text. cbn.
  rewrite (slot_text_first _ _ _ _ _ Ht Hne), (slot_text_second _ _ _ _ _ Hd).
  repeat split.
Qed.

Lemma fetchWeather_absent_conditions_witness :
  exists σ',
    fetchWeather (Number false 561572 (-4)) (Number false 102107 (-4))
      "aarhus-temp" "aarhus-desc"
      (Returns (Response true (Returns (JsonObject None)))) sample_page = (σ', inr tt)
    /\ slot_text "aarhus-temp" σ' = Some "No data available"
    /\ slot_text "aarhus-desc" σ' = Some "".
Proof.
  destruct sample_page_aarhus as (Ht & Hd & Hne).
  destruct (fetchWeather_absent_conditions
              (Number false 561572 (-4)) (Number false 102107 (-4))
              "aarhus-temp" "aarhus-desc"
              (Response true (Returns (JsonObject None))) sample_page
              Ht Hd Hne eq_refl eq_refl)
    as (σ' & Hrun & H1 & H2 & _).
  exists σ'. auto.
Defined.

(** C4 as stated fails for the calendar viewer: a listing without items
    is not rendered like a listing of no events, with its placeholder;
    it is logged as a failure and the list stays empty. *)
Lemma listing_without_items_is_logged_as_failure :
  exists σ',
    @listUpcomingEvents_settled sample_host (Returns (EventsResult None)) sample_page
      = (σ', inr tt)
    /\ trace σ' =
         [ Write "events" ClearInnerHTML;
           ConsoleError "Error fetching events"
             (TypeError "Cannot read properties of undefined") ]
    /\ children_of "events" σ' = Some []
    /\ @listUpcomingEvents_settled sample_host (Returns (EventsResult None)) sample_page
       <> @listUpcomingEvents_settled sample_host (Returns (EventsResult (Some [])))
            sample_page.
Proof.
  eexists. split; [vm_compute; reflexivity |].
  split; [reflexivity |]. split; [reflexivity |].
  vm_compute. discriminate.
Qed.

(** ** Catch boundaries *)

(** A handler that only logs turns every failure of the body into a
    completed computation. *)
Lemma try_catch_logs (body : js unit) (message : string) (σ : page) :
  exists σ', try_catch body (fun e => console_error message e) σ = (σ', inr tt).
Proof.
  unfold try_catch, console_error, emit.
  destruct (body σ) as [σ1 [e | []]]; eauto.
Qed.

Lemma try_catch_warns (body : js unit) (message : string) (σ : page) :
  exists σ', try_catch body (fun e => console_warn message e) σ = (σ', inr tt).
Proof.
  unfold try_catch, console_warn, emit.
  destruct (body σ) as [σ1 [e | []]]; eauto.
Qed.

(** The call sites that sit inside their own catch boundary: the weather
    fetch, the store initialisation, the creation and the deletion of a
    note, the initialisation of the calendar client and the event
    listing.  Whatever the service answers, the handler completes
    without raising. *)
Lemma external_failures_caught `{Host} :
  (forall lat lon tempElemId descElemId net σ,
     present tempElemId σ -> present descElemId σ ->
     exists σ', fetchWeather lat lon tempElemId descElemId net σ = (σ', inr tt))
  /\ (forall appAns storeAns σ,
       exists σ', initFirebase appAns storeAns σ = (σ', inr tt))
  /\ (forall notesCol ans σ,
       present "note-input" σ ->
       exists σ', saveNoteClick notesCol ans σ = (σ', inr tt))
  /\ (forall id ans σ, exists σ', deleteNoteClick id ans σ = (σ', inr tt))
  /\ (forall ans signedIn now σ,
       exists σ', initClient_settled ans signedIn now σ = (σ', inr tt))
  /\ (forall ans σ, exists σ', listUpcomingEvents_settled ans σ = (σ', inr tt)).
Proof.
  repeat split.
  - intros lat lon t d net σ Ht Hd. rewrite (fetchWeather_run _ _ _ _ _ _ Ht Hd).
    destruct (weather_rendering net) as [[? ?] ?]. eauto.
  - intros. apply try_catch_warns.
  - intros notesCol ans σ Hp. pose proof (element_ref_present _ _ Hp) as Href.
    destruct Hp as [input Hin]. unfold saveNoteClick.
    unfold mbind at 1 2, js_bind at 1 2, getElementById. rewrite Href.
    cbn [get_value]. rewrite Hin.
    destruct (Str.truthy (Str.trim (value input))); cbn [negb].
    + apply try_catch_logs.
    + eexists. reflexivity.
  - intros. apply try_catch_logs.
  - intros. apply (try_catch_logs _ _ σ).
  - intros. apply (try_catch_logs _ _ σ).
Qed.

(** The handlers of sign-in and sign-out have no catch boundary: they
    pass a rejection on. *)
Lemma signin_signout_pass_rejections (e : error) (σ : page) :
  snd (handleAuthClick (Fails e) σ) = inl e
  /\ snd (handleSignoutClick (Fails e) σ) = inl e.
Proof. split; reflexivity. Qed.

(** C9.  The script breaks the claim at sign-in and sign-out.  Once the
    calendar client is initialised, a click on the authorize button
    whose sign-in is rejected, or on the sign-out button whose sign-out
    is rejected, leaves the rejection uncaught, where all other call
    sites catch and log. *)
Theorem rejected_signin_is_uncaught :
  let σ := host_run (initClient_settled (Returns tt) false "2026-11-02T08:00:00.000Z")
             sample_page in
  onclick <$> document σ !! "authorize_button" = Some (Some HandleAuthClick)
  /\ onclick <$> document σ !! "signout_button" = Some (Some HandleSignoutClick)
  /\ trace (@deliver sample_host
             (Click "authorize_button" [] (Fails (Failure "popup_closed_by_user"))) σ)
     = (trace σ ++ [Call SignIn; Uncaught (Failure "popup_closed_by_user")])%list
  /\ trace (@deliver sample_host
             (Click "signout_button" [] (Fails (Failure "network_error"))) σ)
     = (trace σ ++ [Call SignOut; Uncaught (Failure "network_error")])%list.
Proof. repeat split; vm_compute; reflexivity. Qed.

(** * Further properties *)

(** ** Weather codes, continued *)

Lemma weatherCodeMap_range (code : Z) (s : string) :
  weatherCodeMap !! code = Some s -> 0 <= code <= 99 /\ s <> "Unknown conditions".
Proof.
  unfold weatherCodeMap. intros H%elem_of_list_to_map_2.
  repeat (apply elem_of_cons in H as [H | H];
          [injection H as -> ->; split; [lia | discriminate] |]).
  now apply elem_of_nil in H.
Qed.

(** A description other than the fallback is an entry of the table. *)
Lemma interpretWeatherCode_known (code : Z) :
  interpretWeatherCode code <> "Unknown conditions" ->
  weatherCodeMap !! code = Some (interpretWeatherCode code).
Proof.
  unfold interpretWeatherCode, or_else.
  destruct (weatherCodeMap !! code) as [s |] eqn:Hs; [| congruence].
  now rewrite (weatherCodeMap_truthy _ _ Hs).
Qed.

Lemma interpretWeatherCode_entry (code : Z) (s : string) :
  weatherCodeMap !! code = Some s -> interpretWeatherCode code = s.
Proof.
  intros Hs. unfold interpretWeatherCode, or_else. rewrite Hs.
  now rewrite (weatherCodeMap_truthy _ _ Hs).
Qed.

(** X1.  A description is never the empty string, and a description
    other than "Unknown conditions" is the entry of the table for a code
    between 0 and 99. *)
Theorem interpretWeatherCode_description (code : Z) :
  interpretWeatherCode code <> ""
  /\ (interpretWeatherCode code <> "Unknown conditions" ->
      0 <= code <= 99
      /\ weatherCodeMap !! code = Some (interpretWeatherCode code)).
Proof.
  split.
  - destruct (weatherCodeMap !! code) as [s |] eqn:Hs.
    + rewrite (interpretWeatherCode_entry _ _ Hs). intros ->.
      pose proof (weatherCodeMap_truthy _ _ Hs). discriminate.
    + unfold interpretWeatherCode. rewrite Hs. discriminate.
  - intros Hk. pose proof (interpretWeatherCode_known _ Hk) as Hs.
    split; [apply (weatherCodeMap_range _ _ Hs) | exact Hs].
Qed.

Lemma interpretWeatherCode_description_witness :
  0 <= 95 <= 99 /\ weatherCodeMap !! 95 = Some (interpretWeatherCode 95).
Proof.
  apply (proj2 (interpretWeatherCode_description 95)). vm_compute. discriminate.
Defined.

Lemma weatherCodeMap_descriptions_distinct :
  NoDup (snd <$> [ (0, "Clear sky"); (1, "Mainly clear"); (2, "Partly cloudy");
      (3, "Overcast"); (45, "Fog"); (48, "Depositing rime fog");
      (51, "Light drizzle"); (53, "Moderate drizzle"); (55, "Dense drizzle");
      (56, "Light freezing drizzle"); (57, "Dense freezing drizzle");
      (61, "Slight rain"); (63, "Moderate rain"); (65, "Heavy rain");
      (66, "Light freezing rain"); (67, "Heavy freezing rain");
      (71, "Slight snowfall"); (73, "Moderate snowfall"); (75, "Heavy snowfall");
      (77, "Snow grains"); (80, "Slight rain showers");
      (81, "Moderate rain showers"); (82, "Violent rain showers");
      (85, "Slight snow showers"); (86, "Heavy snow showers");
      (95, "Thunderstorm"); (96, "Thunderstorm with slight hail");
      (99, "Thunderstorm with heavy hail") ] : list string).
Proof. apply (bool_decide_unpack _). vm_compute. reflexivity. Qed.

(** X2.  The description identifies the code: a code of the table and
    any other code with the same description are the same code. *)
Theorem interpretWeatherCode_injective (code code' : Z) :
  is_Some (weatherCodeMap !! code) ->
  interpretWeatherCode code = interpretWeatherCode code' ->
  code = code'.
Proof.
  intros [s Hs] Heq.
  pose proof (interpretWeatherCode_entry _ _ Hs) as H1.
  destruct (weatherCodeMap_range _ _ Hs) as [_ Hne].
  assert (Hs' : weatherCodeMap !! code' = Some s).
  { rewrite <- H1, Heq. apply interpretWeatherCode_known. now rewrite <- Heq, H1. }
  unfold weatherCodeMap in Hs, Hs'.
  apply elem_of_list_to_map_2, list_elem_of_lookup in Hs as [i Hi].
  apply elem_of_list_to_map_2, list_elem_of_lookup in Hs' as [j Hj].
  assert (i = j).
  { eapply (NoDup_lookup _ i j s weatherCodeMap_descriptions_distinct).
    - rewrite list_lookup_fmap, Hi. reflexivity.
    - rewrite list_lookup_fmap, Hj. reflexivity. }
  subst j. congruence.
Qed.

Lemma interpretWeatherCode_injective_witness :
  is_Some (weatherCodeMap !! 3)
  /\ interpretWeatherCode 3 = interpretWeatherCode (1 + 2)
  /\ 3 = 1 + 2.
Proof.
  assert (Hentry : is_Some (weatherCodeMap !! 3))
    by (eexists; vm_compute; reflexivity).
  split; [exact Hentry |]. split; [reflexivity |].
  exact (interpretWeatherCode_injective 3 (1 + 2) Hentry eq_refl).
Defined.

(** ** Weather, continued *)

Lemma element_ref_absent (id : string) (σ : page) :
  document σ !! id = None -> element_ref (document σ) id = None.
Proof. intros H. unfold element_ref. now rewrite H. Qed.

Lemma present_alter (f : element -> element) (i j : string)
    (doc : gmap string element) :
  is_Some (doc !! j) -> is_Some (alter f i doc !! j).
Proof.
  intros [e He]. rewrite lookup_alter. case_decide; subst; rewrite He; eauto.
Qed.

Lemma same_but_children_text (s : string) (e : element) :
  same_but_children e (apply_mutation (SetTextContent s) e).
Proof. repeat split. Qed.

(** X3.  [fetchWeather] changes nothing but the children of its two
    slots: every other element of the page stays as it was, the two
    slots keep their value, state, style and handlers, and neither the
    store handle nor the registered listeners change. *)
Theorem fetchWeather_touches_only_slots
    (lat lon : number) (tempElemId descElemId : string)
    (net : answer response) (σ : page) :
  present tempElemId σ -> present descElemId σ ->
  let σ' := fst (fetchWeather lat lon tempElemId descElemId net σ) in
  db σ' = db σ
  /\ snapshotListeners σ' = snapshotListeners σ
  /\ signinListeners σ' = signinListeners σ
  /\ (forall id, id <> tempElemId -> id <> descElemId ->
        document σ' !! id = document σ !! id)
  /\ (forall id e, document σ !! id = Some e ->
        exists e', document σ' !! id = Some e' /\ same_but_children e e').
Proof.
  intros Ht Hd. cbn zeta. rewrite (fetchWeather_run _ _ _ _ _ _ Ht Hd).
  destruct (weather_rendering net) as [[err t] d]. cbn.
  repeat split.
  - intros id H1 H2. now rewrite !lookup_alter_ne by congruence.
  - intros id e He. rewrite !lookup_alter.
    repeat case_decide; subst; rewrite He; cbn; eexists; split;
      try reflexivity; repeat split.
Qed.

Lemma fetchWeather_touches_only_slots_witness :
  let σ' := fst (fetchWeather (Number false 561572 (-4)) (Number false 102107 (-4))
                   "aarhus-temp" "aarhus-desc" (Fails (Failure "offline"))
                   sample_page) in
  document σ' !! "newton-temp" = document sample_page !! "newton-temp".
Proof.
  destruct sample_page_aarhus as (Ht & Hd & _).
  refine (proj1 (proj2 (proj2 (proj2
    (fetchWeather_touches_only_slots (Number false 561572 (-4))
       (Number false 102107 (-4)) "aarhus-temp" "aarhus-desc"
       (Fails (Failure "offline")) sample_page Ht Hd)))) "newton-temp" _ _);
    discriminate.
Defined.

(** X4.  When the page has no temperature slot, [fetchWeather] raises:
    the first write fails, the catch block logs an error and fails on
    the same write.  Nothing is written, whatever the network answers;
    the error logged is that of the fetch when the fetch failed. *)
Theorem fetchWeather_without_temperature_slot
    (lat lon : number) (tempElemId descElemId : string)
    (net : answer response) (σ : page) :
  document σ !! tempElemId = None ->
  exists e msg,
    fetchWeather lat lon tempElemId descElemId net σ =
      (Page (db σ) (document σ) (snapshotListeners σ) (signinListeners σ)
         (trace σ ++ [ Call (Fetch (weather_url lat lon));
                       ConsoleError "Error fetching weather:" e ]),
       inl (TypeError msg))
    /\ (forall e', fetch_fails net e' -> e = e').
Proof.
  intros Ht%element_ref_absent.
  unfold fetchWeather, get_current_weather.
  destruct net as [r | e]; js_run;
    [destruct (ok r) eqn:Hok; js_run;
       [destruct (json r) as [[| [c |]] | e] eqn:Hjson; js_run |] |].
  all: rewrite ?Ht; js_run; rewrite ?Ht; js_run.
  all: do 2 eexists; split; [reflexivity |].
  all: intros e' Hf; inversion Hf; subst; congruence.
Qed.

Lemma fetchWeather_without_temperature_slot_witness :
  exists e,
    snd (fetchWeather (Number false 561572 (-4)) (Number false 102107 (-4))
           "missing" "aarhus-desc"
           (Returns (Response true
              (Returns (JsonObject (Some (CurrentWeather (Number false 214 (-1)) 3))))))
           sample_page)
    = inl e.
Proof.
  destruct (fetchWeather_without_temperature_slot
              (Number false 561572 (-4)) (Number false 102107 (-4))
              "missing" "aarhus-desc"
              (Returns (Response true
                 (Returns (JsonObject (Some (CurrentWeather (Number false 214 (-1)) 3))))))
              sample_page eq_refl) as (e & msg & Hrun & _).
  rewrite Hrun. eexists. reflexivity.
Defined.

(** X5.  When the page has the temperature slot but no description
    slot, [fetchWeather] raises and the temperature slot ends up showing
    "Error fetching weather", also when the fetch succeeded and the
    temperature had been written. *)
Theorem fetchWeather_without_description_slot
    (lat lon : number) (tempElemId descElemId : string)
    (net : answer response) (σ : page) :
  present tempElemId σ -> document σ !! descElemId = None ->
  exists σ' msg,
    fetchWeather lat lon tempElemId descElemId net σ = (σ', inl (TypeError msg))
    /\ slot_text tempElemId σ' = Some "Error fetching weather"
    /\ (forall r c, net = Returns r -> ok r = true ->
          json r = Returns (JsonObject (Some c)) ->
          trace σ' =
            (trace σ ++
             [ Call (Fetch (weather_url lat lon));
               Write tempElemId
                 (SetTextContent (Num.toString (temperature c) +:+ "°C"));
               ConsoleError "Error fetching weather:" (TypeError msg);
               Write tempElemId (SetTextContent "Error fetching weather") ])%list).
Proof.
  intros Hp Hd%element_ref_absent.
  pose proof (element_ref_present _ _ Hp) as Ht. destruct Hp as [et Het].
  unfold fetchWeather, get_current_weather, slot_text.
  destruct net as [r | e]; js_run;
    [destruct (ok r) eqn:Hok; js_run;
       [destruct (json r) as [[| [c |]] | e] eqn:Hjson; js_run |] |].
  all: rewrite ?Ht; js_run; rewrite ?Hd; js_run; rewrite ?Ht; js_run;
    rewrite ?Hd; js_run.
  all: do 2 eexists; split; [reflexivity |]; cbn.
  all: rewrite ?lookup_alter_eq, Het; cbn.
  all: split; [f_equal; apply textContent_text_nodes |].
  all: intros r' c' Hr Hok' Hjson'; try discriminate.
  all: injection Hr as <-; congruence.
Qed.

Lemma fetchWeather_without_description_slot_witness :
  exists σ' msg,
    fetchWeather (Number false 561572 (-4)) (Number false 102107 (-4))
      "aarhus-temp" "missing"
      (Returns (Response true
         (Returns (JsonObject (Some (CurrentWeather (Number false 214 (-1)) 3))))))
      sample_page = (σ', inl (TypeError msg))
    /\ slot_text "aarhus-temp" σ' = Some "Error fetching weather".
Proof.
  destruct (fetchWeather_without_description_slot
              (Number false 561572 (-4)) (Number false 102107 (-4))
              "aarhus-temp" "missing"
              (Returns (Response true
                 (Returns (JsonObject (Some (CurrentWeather (Number false 214 (-1)) 3))))))
              sample_page (ex_intro _ blank eq_refl) eq_refl)
    as (σ' & msg & Hrun & Htext & _).
  exists σ', msg. auto.
Defined.

(** X6.  Two fetches on disjoint pairs of slots do not interfere: in
    whichever order they complete, the page ends up with the same
    elements. *)
Theorem fetchWeather_independent
    (lat1 lon1 lat2 lon2 : number) (t1 d1 t2 d2 : string)
    (net1 net2 : answer response) (σ : page) :
  present t1 σ -> present d1 σ -> present t2 σ -> present d2 σ ->
  t1 <> t2 -> t1 <> d2 -> d1 <> t2 -> d1 <> d2 ->
  let first := fetchWeather lat1 lon1 t1 d1 net1 in
  let second := fetchWeather lat2 lon2 t2 d2 net2 in
  document (fst (second (fst (first σ)))) = document (fst (first (fst (second σ))))
  /\ snd (second (fst (first σ))) = inr tt
  /\ snd (first (fst (second σ))) = inr tt.
Proof.
  intros Ht1 Hd1 Ht2 Hd2 H1 H2 H3 H4. cbn zeta.
  rewrite (fetchWeather_run lat1 lon1 t1 d1 net1 σ Ht1 Hd1).
  rewrite (fetchWeather_run lat2 lon2 t2 d2 net2 σ Ht2 Hd2).
  destruct (weather_rendering net1) as [[err1 x1] y1] eqn:Hr1.
  destruct (weather_rendering net2) as [[err2 x2] y2] eqn:Hr2.
  cbn [fst].
  rewrite fetchWeather_run, fetchWeather_run
    by (unfold present; cbn; do 2 apply present_alter; assumption).
  rewrite Hr1, Hr2. cbn.
  split; [| split; reflexivity].
  rewrite (alter_alter_ne _ _ _ t2 d1) by congruence.
  rewrite (alter_alter_ne _ _ _ t2 t1) by congruence.
  rewrite (alter_alter_ne _ _ _ d2 d1) by congruence.
  rewrite (alter_alter_ne _ _ _ d2 t1) by congruence.
  reflexivity.
Qed.

Lemma fetchWeather_independent_witness :
  let first := fetchWeather (Number false 561572 (-4)) (Number false 102107 (-4))
                 "aarhus-temp" "aarhus-desc" (Fails (Failure "offline")) in
  let second := fetchWeather (Number false 410582 (-4)) (Number true 747527 (-4))
                  "newton-temp" "newton-desc"
                  (Returns (Response true (Returns (JsonObject None)))) in
  document (fst (second (fst (first sample_page))))
  = document (fst (first (fst (second sample_page)))).
Proof.
  refine (proj1 (fetchWeather_independent
            (Number false 561572 (-4)) (Number false 102107 (-4))
            (Number false 410582 (-4)) (Number true 747527 (-4))
            "aarhus-temp" "aarhus-desc" "newton-temp" "newton-desc"
            (Fails (Failure "offline"))
            (Returns (Response true (Returns (JsonObject None))))
            sample_page _ _ _ _ _ _ _ _)).
  1-4: eexists; reflexivity.
  all: discriminate.
Defined.

(** ** Notes, continued *)

Lemma with_children_app_nil (e : element) :
  with_children (childNodes e ++ []) e = e.
Proof. destruct e. unfold with_children. cbn. now rewrite app_nil_r. Qed.

(** [forEach] with [appendChild], as an equation on the whole page. *)
Lemma forEach_AppendChild_run {A : Type} (f : A -> node) (id : string) (l : list A) :
  forall σ : page,
    forEach l (fun x => mutate (Some id) (AppendChild (f x))) σ =
      (Page (db σ)
         (alter (fun e => with_children (childNodes e ++ map f l) e) id (document σ))
         (snapshotListeners σ) (signinListeners σ)
         (trace σ ++ map (fun x => Write id (AppendChild (f x))) l),
       inr tt).
Proof.
  induction l as [| x l IH]; intros σ.
  - cbn. rewrite app_nil_r.
    rewrite (alter_id _ (document σ) id)
      by (intros; apply with_children_app_nil).
    now destruct σ.
  - cbn [forEach]. unfold mbind, js_bind. unfold mutate at 1. cbn beta iota.
    rewrite IH. cbn.
    rewrite alter_alter_eq, <- app_assoc. cbn.
    f_equal. f_equal. apply alter_ext. intros e _. unfold with_children. cbn.
    now rewrite <- app_assoc.
Qed.

(** [renderNotes] in one equation. *)
Lemma renderNotes_run (snapshot : list docSnap) (σ : page) :
  present "notes-list" σ ->
  renderNotes snapshot σ =
    (Page (db σ)
       (alter (with_children (map note_item snapshot)) "notes-list" (document σ))
       (snapshotListeners σ) (signinListeners σ)
       (trace σ ++
        Write "notes-list" ClearInnerHTML ::
        map (fun d => Write "notes-list" (AppendChild (note_item d))) snapshot),
     inr tt).
Proof.
  intros Hp%element_ref_present.
  unfold renderNotes, mbind, js_bind, getElementById. rewrite Hp.
  unfold mutate at 1. cbn beta iota.
  rewrite forEach_AppendChild_run. cbn.
  rewrite alter_alter_eq, <- app_assoc. reflexivity.
Qed.

Lemma renderNotes_absent (snapshot : list docSnap) (σ : page) :
  document σ !! "notes-list" = None ->
  renderNotes snapshot σ = (σ, inl (TypeError "Cannot set properties of null")).
Proof.
  intros Hp%element_ref_absent.
  unfold renderNotes, mbind, js_bind, getElementById. now rewrite Hp.
Qed.

(** X7.  The list shows the last snapshot only: rendering a snapshot
    after another leaves the elements of the page exactly as rendering
    it alone does, and rendering the same snapshot twice changes
    nothing the second time. *)
Theorem renderNotes_last_snapshot_wins (s1 s2 : list docSnap) (σ : page) :
  document (fst (renderNotes s2 (fst (renderNotes s1 σ))))
  = document (fst (renderNotes s2 σ)).
Proof.
  destruct (document σ !! "notes-list") as [ul |] eqn:Hul.
  - assert (Hp : present "notes-list" σ) by (eexists; exact Hul).
    rewrite (renderNotes_run s1 σ Hp). cbn [fst].
    rewrite renderNotes_run
      by (unfold present; cbn; rewrite lookup_alter_eq, Hul; eauto).
    rewrite (renderNotes_run s2 σ Hp). cbn.
    rewrite alter_alter_eq. apply alter_ext. reflexivity.
  - rewrite (renderNotes_absent s1 σ Hul). cbn [fst]. reflexivity.
Qed.

(** X8.  [renderNotes] only writes to the notes list: one write that
    clears it and one per document, no call into the store and no log
    entry.  The list keeps its own value, state, style and handlers, and
    every other element stays as it was. *)
Theorem renderNotes_effects (snapshot : list docSnap) (σ : page) (ul : element) :
  document σ !! "notes-list" = Some ul ->
  exists σ' written,
    renderNotes snapshot σ = (σ', inr tt)
    /\ trace σ' = (trace σ ++ written)%list
    /\ length written = S (length snapshot)
    /\ Forall (fun ev => exists m, ev = Write "notes-list" m) written
    /\ (exists ul', document σ' !! "notes-list" = Some ul'
                    /\ same_but_children ul ul')
    /\ (forall id, id <> "notes-list" -> document σ' !! id = document σ !! id)
    /\ db σ' = db σ
    /\ snapshotListeners σ' = snapshotListeners σ.
Proof.
  intros Hul.
  rewrite renderNotes_run by (eexists; exact Hul).
  eexists. eexists. split; [reflexivity |]. cbn.
  split; [reflexivity |]. split; [cbn [length]; f_equal; apply length_map |].
  split; [| split; [| split]].
  - constructor; [eauto |]. apply Forall_fmap, Forall_true. cbn. eauto.
  - rewrite lookup_alter_eq, Hul. cbn. eexists. split; [reflexivity |].
    repeat split.
  - intros id Hne. now rewrite lookup_alter_ne by congruence.
  - split; reflexivity.
Qed.

Lemma renderNotes_effects_witness :
  exists σ' written,
    renderNotes [DocSnap "a1" "Buy milk"; DocSnap "b2" "Call home"] sample_page
      = (σ', inr tt)
    /\ trace σ' = (trace sample_page ++ written)%list
    /\ length written = 3%nat.
Proof.
  destruct (renderNotes_effects
              [DocSnap "a1" "Buy milk"; DocSnap "b2" "Call home"] sample_page blank
              eq_refl)
    as (σ' & written & Hrun & Htr & Hlen & _).
  exists σ', written. auto.
Defined.

(** [initNotes] with the store defined, in one equation. *)
Lemma initNotes_enabled_run (handle : string) (σ : page) :
  db σ = Some handle -> present "save-note" σ ->
  initNotes σ =
    (Page (db σ)
       (alter (apply_mutation (AddClickListener (SaveNoteClick "notes")))
          "save-note" (document σ))
       (snapshotListeners σ ++ [("notes", RenderNotes)]) (signinListeners σ)
       (trace σ ++ [ Call (OnSnapshot "notes" RenderNotes);
                     Write "save-note" (AddClickListener (SaveNoteClick "notes")) ]),
     inr tt).
Proof.
  intros Hdb Hp%element_ref_present.
  unfold initNotes, get_db, onSnapshot, collection. js_run. rewrite Hdb. js_run.
  rewrite Hp. js_run. now rewrite Hdb.
Qed.

(** X9.  With the store defined, [initNotes] subscribes to the notes
    collection, and from then on every snapshot delivered for that
    collection is what the list shows; a snapshot of another collection
    changes nothing. *)
Theorem notes_follow_snapshots `{Host}
    (handle : string) (snapshot : list docSnap) (σ : page) :
  db σ = Some handle -> present "save-note" σ -> present "notes-list" σ ->
  snapshotListeners σ = [] ->
  let σ1 := host_run initNotes σ in
  snapshotListeners σ1 = [("notes", RenderNotes)]
  /\ children_of "notes-list" (deliver (SnapshotDelivered "notes" snapshot) σ1)
     = Some (map note_item snapshot)
  /\ (forall col, col <> "notes" ->
        deliver (SnapshotDelivered col snapshot) σ1 = σ1).
Proof.
  intros Hdb Hs [ul Hul] Hnone. cbn zeta.
  assert (Hσ1 : host_run initNotes σ = fst (initNotes σ))
    by (unfold host_run; now rewrite (initNotes_enabled_run handle σ Hdb Hs)).
  rewrite Hσ1, (initNotes_enabled_run handle σ Hdb Hs), Hnone.
  cbn [fst snd app snapshotListeners deliver fold_left].
  split; [reflexivity |]. split.
  - rewrite String.eqb_refl. unfold host_run, run_snapshot_callback.
    rewrite renderNotes_run
      by (unfold present; cbn; rewrite lookup_alter_ne by discriminate; eauto).
    unfold children_of. cbn.
    rewrite lookup_alter_eq, lookup_alter_ne, Hul by discriminate. reflexivity.
  - intros col Hcol. apply String.eqb_neq in Hcol.
    rewrite String.eqb_sym in Hcol. now rewrite Hcol.
Qed.

Lemma notes_follow_snapshots_witness :
  children_of "notes-list"
    (@deliver sample_host (SnapshotDelivered "notes" [DocSnap "a1" "Buy milk"])
       (host_run initNotes enabled_page))
  = Some [ Elem "li" [Text "Buy milk"; Elem "button" [Text "Delete"] [DeleteNoteClick "a1"]] [] ].
Proof.
  refine (proj1 (proj2 (@notes_follow_snapshots sample_host "firestore"
                          [DocSnap "a1" "Buy milk"] enabled_page eq_refl _ _ eq_refl))).
  all: eexists; reflexivity.
Defined.

(** The save handler in one equation. *)
Lemma saveNoteClick_run (notesCol : string) (ans : answer unit) (σ : page)
    (input : element) :
  document σ !! "note-input" = Some input ->
  saveNoteClick notesCol ans σ =
    (let text := Str.trim (value input) in
     if Str.truthy text then
       match ans with
       | Returns _ =>
           Page (db σ)
             (alter (apply_mutation (SetValue "")) "note-input" (document σ))
             (snapshotListeners σ) (signinListeners σ)
             (trace σ ++ [Call (AddDoc notesCol text);
                          Write "note-input" (SetValue "")])
       | Fails e =>
           Page (db σ) (document σ) (snapshotListeners σ) (signinListeners σ)
             (trace σ ++ [Call (AddDoc notesCol text);
                          ConsoleError "Error adding note:" e])
       end
     else σ,
     inr tt).
Proof.
  intros Hin.
  assert (Href : element_ref (document σ) "note-input" = Some "note-input")
    by (apply element_ref_present; eexists; exact Hin).
  unfold saveNoteClick. js_run. rewrite Href. cbn. rewrite Hin. cbn.
  destruct (Str.truthy (Str.trim (value input))); [| reflexivity].
  destruct ans as [[] | e]; js_run; reflexivity.
Qed.

(** X10.  Once [initNotes] has run with the store defined, a click on
    the save button issues one create request with the trimmed text of
    the input, then clears the input or logs the failure; it issues
    nothing when the trimmed text is empty. *)
Theorem save_click_creates_note `{Host}
    (handle : string) (ans : answer unit) (σ : page) (button input : element) :
  db σ = Some handle ->
  document σ !! "save-note" = Some button -> own_listeners button = [] ->
  document σ !! "note-input" = Some input ->
  let σ1 := host_run initNotes σ in
  let text := Str.trim (value input) in
  trace (deliver (Click "save-note" [] ans) σ1) =
    (trace σ1 ++
     if Str.truthy text then
       Call (AddDoc "notes" text) ::
       match ans with
       | Returns _ => [Write "note-input" (SetValue "")]
       | Fails e => [ConsoleError "Error adding note:" e]
       end
     else [])%list.
Proof.
  intros Hdb Hb Hown Hin. cbn zeta.
  assert (Hp : present "save-note" σ) by (eexists; exact Hb).
  assert (Hσ1 : host_run initNotes σ = fst (initNotes σ))
    by (unfold host_run; now rewrite (initNotes_enabled_run handle σ Hdb Hp)).
  rewrite Hσ1, (initNotes_enabled_run handle σ Hdb Hp). cbn [fst].
  unfold deliver. cbn [document]. rewrite lookup_alter_eq, Hb.
  cbn [fmap option_fmap option_map click_path].
  assert (Hl : own_listeners (apply_mutation (AddClickListener (SaveNoteClick "notes")) button)
               = [SaveNoteClick "notes"]).
  { unfold own_listeners in *. cbn.
    destruct (clickListeners button); [| discriminate].
    destruct (onclick button); [discriminate | reflexivity]. }
  rewrite Hl. cbn [fold_left run_listener]. unfold host_run.
  erewrite saveNoteClick_run
    by (cbn; rewrite lookup_alter_ne by discriminate; exact Hin).
  cbn zeta. destruct (Str.truthy (Str.trim (value input))).
  - destruct ans as [[] | e]; cbn; rewrite <- ?app_assoc; reflexivity.
  - cbn. now rewrite app_nil_r.
Qed.

Lemma save_click_creates_note_witness :
  trace (@deliver sample_host (Click "save-note" [] (Returns tt))
           (host_run initNotes enabled_page))
  = (trace (host_run initNotes enabled_page) ++
     [Call (AddDoc "notes" "Buy milk"); Write "note-input" (SetValue "")])%list.
Proof.
  exact (@save_click_creates_note sample_host "firestore" (Returns tt) enabled_page
           blank (apply_mutation (SetValue "Buy milk") blank)
           eq_refl eq_refl eq_refl eq_refl).
Defined.

Lemma deleteNoteClick_run (id : string) (ans : answer unit) (σ : page) :
  deleteNoteClick id ans σ =
    (Page (db σ) (document σ) (snapshotListeners σ) (signinListeners σ)
       (trace σ ++ Call (DeleteDoc "notes" id) ::
        match ans with
        | Returns _ => []
        | Fails e => [ConsoleError "Error deleting note:" e]
        end),
     inr tt).
Proof. unfold deleteNoteClick. destruct ans as [[] | e]; js_run; reflexivity. Qed.

(** X11.  On a rendered list, a click on the delete button of an item,
    or on the label of that button, issues the delete request for the
    document of that item and leaves the page as it is: the item stays
    until the next snapshot.  A click on the item beside its button
    does nothing. *)
Theorem delete_click_requests_deletion `{Host}
    (snapshot : list docSnap) (i : nat) (d : docSnap) (ans : answer unit)
    (σ : page) (ul : element) :
  document σ !! "notes-list" = Some ul -> own_listeners ul = [] ->
  childNodes ul = map note_item snapshot ->
  snapshot !! i = Some d ->
  let k := length (text_nodes (doc_text d)) in
  let deleted :=
    Page (db σ) (document σ) (snapshotListeners σ) (signinListeners σ)
      (trace σ ++ Call (DeleteDoc "notes" (doc_id d)) ::
       match ans with
       | Returns _ => []
       | Fails e => [ConsoleError "Error deleting note:" e]
       end) in
  deliver (Click "notes-list" [i; k] ans) σ = deleted
  /\ deliver (Click "notes-list" [i; k; 0%nat] ans) σ = deleted
  /\ deliver (Click "notes-list" [i] ans) σ = σ.
Proof.
  intros Hul Hown Hch Hi. cbn zeta. unfold deliver. rewrite Hul.
  unfold click_path. rewrite Hch, Hown, list_lookup_fmap, Hi.
  cbn [fmap option_fmap option_map].
  unfold note_item, createElement, node_setTextContent, node_addEventListener,
    node_appendChild.
  cbn [node_click_path app].
  rewrite list_lookup_middle by reflexivity.
  cbn [node_click_path lookup list_lookup app fold_left run_listener].
  unfold host_run. rewrite deleteNoteClick_run.
  split; [reflexivity |]. split; [| reflexivity].
  change (text_nodes "Delete") with [Text "Delete"].
  cbn [lookup list_lookup app fold_left run_listener].
  now rewrite deleteNoteClick_run.
Qed.

Lemma delete_click_requests_deletion_witness :
  let σ := fst (renderNotes [DocSnap "a1" "Buy milk"; DocSnap "b2" ""] sample_page) in
  @deliver sample_host (Click "notes-list" [1%nat; 0%nat] (Returns tt)) σ
  = Page (db σ) (document σ) (snapshotListeners σ) (signinListeners σ)
      (trace σ ++ [Call (DeleteDoc "notes" "b2")]).
Proof.
  refine (proj1 (@delete_click_requests_deletion sample_host
            [DocSnap "a1" "Buy milk"; DocSnap "b2" ""] 1 (DocSnap "b2" "") (Returns tt)
            (fst (renderNotes [DocSnap "a1" "Buy milk"; DocSnap "b2" ""] sample_page))
            (with_children (map note_item [DocSnap "a1" "Buy milk"; DocSnap "b2" ""]) blank)
            _ _ _ _)); reflexivity.
Defined.

(** X12.  Without a save button [initNotes] raises, in either mode.
    With the store undefined nothing has happened by then; with the
    store defined the subscription is already registered, so the notes
    are listed although none can be saved. *)
Theorem initNotes_without_save_button (σ : page) :
  document σ !! "save-note" = None ->
  (exists msg, snd (initNotes σ) = inl (TypeError msg))
  /\ document (fst (initNotes σ)) = document σ
  /\ (db σ = None -> fst (initNotes σ) = σ)
  /\ (forall handle, db σ = Some handle ->
        snapshotListeners (fst (initNotes σ)) =
          (snapshotListeners σ ++ [("notes", RenderNotes)])%list
        /\ trace (fst (initNotes σ)) =
             (trace σ ++ [Call (OnSnapshot "notes" RenderNotes)])%list).
Proof.
  intros Hb%element_ref_absent.
  unfold initNotes, get_db, onSnapshot, collection.
  destruct (db σ) as [handle |] eqn:Hdb; js_run; rewrite Hdb; js_run;
    rewrite Hb; js_run.
  - split; [eexists; reflexivity |].
    repeat split; [discriminate | intros h _; reflexivity ..].
  - split; [eexists; reflexivity |]. repeat split; try discriminate.
Qed.

Lemma initNotes_without_save_button_witness :
  document (fst (initNotes (Page (Some "firestore") ∅ [] [] []))) = ∅.
Proof.
  exact (proj1 (proj2 (initNotes_without_save_button
                         (Page (Some "firestore") ∅ [] [] []) eq_refl))).
Defined.

(** X13.  [initFirebase] never raises and leaves the document alone.
    It defines the store exactly when both library calls return, with
    the handle the second returned, and logs one warning otherwise; when
    the first call fails the second is not made. *)
Theorem initFirebase_defines_store
    (appAns storeAns : answer string) (σ : page) :
  db σ = None ->
  let σ' := fst (initFirebase appAns storeAns σ) in
  snd (initFirebase appAns storeAns σ) = inr tt
  /\ document σ' = document σ
  /\ (forall handle, db σ' = Some handle <->
        (exists app, appAns = Returns app) /\ storeAns = Returns handle)
  /\ warnings (trace σ') =
       (warnings (trace σ) + match db σ' with Some _ => 0 | None => 1 end)%nat
  /\ (forall e, appAns = Fails e ->
        exists msg,
          trace σ' =
            (trace σ ++
             [Call (InitializeApp (apiKey firebaseConfig) (projectId firebaseConfig));
              ConsoleWarn msg e])%list).
Proof.
  intros Hdb. cbn zeta. unfold initFirebase, set_db, warnings.
  destruct appAns as [app | e1]; [destruct storeAns as [handle | e2] |];
    js_run; cbn [db document trace]; rewrite ?Hdb.
  all: split; [reflexivity |]; split; [reflexivity |]; split; [| split].
  all: try (rewrite filter_app, length_app;
            match goal with |- (_ + ?x = _)%nat => change x with 0%nat + change x with 1%nat end;
            reflexivity).
  all: try (intros e [=]; subst; eexists; reflexivity).
  all: try (intros e [=]).
  - intros h; split; [intros [= <-]; eauto | intros [_ [= <-]]; reflexivity].
  - intros h; split; [discriminate | intros [_ [=]]].
  - intros h; split; [discriminate | intros [[app [=]] _]].
Qed.

Lemma initFirebase_defines_store_witness :
  db (fst (initFirebase (Returns "app") (Returns "firestore") sample_page))
  = Some "firestore".
Proof.
  apply (proj1 (proj2 (proj2 (initFirebase_defines_store
                  (Returns "app") (Returns "firestore") sample_page eq_refl)))).
  split; [eexists |]; reflexivity.
Defined.

Lemma initNotes_disabled_run (σ : page) :
  db σ = None -> present "save-note" σ ->
  initNotes σ =
    (Page (db σ)
       (alter (apply_mutation (SetTextContent "Notes unavailable")) "save-note"
          (alter (apply_mutation (SetDisabled true)) "save-note" (document σ)))
       (snapshotListeners σ) (signinListeners σ)
       (trace σ ++ [ Write "save-note" (SetDisabled true);
                     Write "save-note" (SetTextContent "Notes unavailable") ]),
     inr tt).
Proof.
  intros Hdb Hp%element_ref_present.
  unfold initNotes, get_db. js_run. rewrite Hdb. js_run.
  rewrite Hp. js_run. now rewrite Hdb.
Qed.

(** X14.  The module start followed by [initNotes], on a page with a
    save button: when both library calls returned the notes are live
    (one subscription, the save handler added to the button, the button
    otherwise as it was); when one failed they are switched off (no
    subscription, no handler, the button disabled and relabelled). *)
Theorem notes_live_iff_store_initialised
    (appAns storeAns : answer string) (σ : page) (button : element) :
  db σ = None -> document σ !! "save-note" = Some button ->
  snapshotListeners σ = [] ->
  let σ1 := fst (initFirebase appAns storeAns σ) in
  let σ2 := fst (initNotes σ1) in
  snd (initNotes σ1) = inr tt
  /\ (((exists app, appAns = Returns app) /\ (exists handle, storeAns = Returns handle)) ->
       snapshotListeners σ2 = [("notes", RenderNotes)]
       /\ document σ2 !! "save-note"
          = Some (apply_mutation (AddClickListener (SaveNoteClick "notes")) button))
  /\ ((exists e, appAns = Fails e \/ storeAns = Fails e) ->
       snapshotListeners σ2 = []
       /\ (disabled <$> document σ2 !! "save-note") = Some true
       /\ (textContent <$> document σ2 !! "save-note") = Some "Notes unavailable"
       /\ (own_listeners <$> document σ2 !! "save-note") = Some (own_listeners button)).
Proof.
  intros Hdb Hb Hl. cbn zeta.
  assert (Hp : present "save-note" σ) by (eexists; exact Hb).
  destruct appAns as [app | e1]; [destruct storeAns as [handle | e2] |].
  - assert (Hσ1 : initFirebase (Returns app) (Returns handle) σ =
              (Page (Some handle) (document σ) (snapshotListeners σ) (signinListeners σ)
                 (trace σ ++ [Call (InitializeApp (apiKey firebaseConfig)
                                      (projectId firebaseConfig));
                              Call GetFirestore]), inr tt))
      by (unfold initFirebase, set_db; js_run; reflexivity).
    rewrite Hσ1. cbn [fst].
    rewrite (initNotes_enabled_run handle) by (try reflexivity; exact Hp).
    cbn [fst snd snapshotListeners document]. rewrite Hl, lookup_alter_eq, Hb.
    split; [reflexivity |]. split; [intros _; split; reflexivity |].
    intros [e [[=] | [=]]].
  - destruct (initFirebase_failed (Returns app) (Fails e2) σ Hdb) as
      (σ1 & Hrun & Hdb1 & Hdoc & Hsl & _); [eauto |].
    rewrite Hrun. cbn [fst].
    rewrite initNotes_disabled_run
      by (try exact Hdb1; unfold present; rewrite Hdoc; eexists; exact Hb).
    cbn [fst snd snapshotListeners document].
    rewrite !lookup_alter_eq, Hdoc, Hb, Hsl, Hl.
    split; [reflexivity |]. split; [intros [_ [h [=]]] |].
    intros _. repeat split.
  - destruct (initFirebase_failed (Fails e1) storeAns σ Hdb) as
      (σ1 & Hrun & Hdb1 & Hdoc & Hsl & _); [eauto |].
    rewrite Hrun. cbn [fst].
    rewrite initNotes_disabled_run
      by (try exact Hdb1; unfold present; rewrite Hdoc; eexists; exact Hb).
    cbn [fst snd snapshotListeners document].
    rewrite !lookup_alter_eq, Hdoc, Hb, Hsl, Hl.
    split; [reflexivity |]. split; [intros [[a [=]] _] |].
    intros _. repeat split.
Qed.

Lemma notes_live_iff_store_initialised_witness :
  snapshotListeners
    (fst (initNotes (fst (initFirebase (Returns "app") (Fails (Failure "offline"))
                            sample_page)))) = [].
Proof.
  refine (proj1 (proj2 (proj2 (notes_live_iff_store_initialised
            (Returns "app") (Fails (Failure "offline")) sample_page blank
            eq_refl eq_refl eq_refl)) _)).
  eexists; right; reflexivity.
Defined.

(** ** Calendar, continued *)

(** [updateSigninStatus] in one equation, on a page that has the
    elements it looks up. *)
Lemma updateSigninStatus_run (isSignedIn : bool) (now : string) (σ : page) :
  present "authorize_button" σ -> present "signout_button" σ ->
  (isSignedIn = false -> present "events" σ) ->
  updateSigninStatus isSignedIn now σ =
    (if isSignedIn then
       Page (db σ)
         (alter (apply_mutation (SetDisplay "inline-block")) "signout_button"
            (alter (apply_mutation (SetDisplay "none")) "authorize_button"
               (document σ)))
         (snapshotListeners σ) (signinListeners σ)
         (trace σ ++ [ Write "authorize_button" (SetDisplay "none");
                       Write "signout_button" (SetDisplay "inline-block");
                       Call (EventsList "primary" now false true 10 "startTime") ])
     else
       Page (db σ)
         (alter (apply_mutation ClearInnerHTML) "events"
            (alter (apply_mutation (SetDisplay "none")) "signout_button"
               (alter (apply_mutation (SetDisplay "inline-block")) "authorize_button"
                  (document σ))))
         (snapshotListeners σ) (signinListeners σ)
         (trace σ ++ [ Write "authorize_button" (SetDisplay "inline-block");
                       Write "signout_button" (SetDisplay "none");
                       Write "events" ClearInnerHTML ]),
     inr tt).
Proof.
  intros Ha%element_ref_present Hs%element_ref_present He.
  unfold updateSigninStatus, listUpcomingEvents. js_run. rewrite Ha, Hs.
  destruct isSignedIn; js_run; [reflexivity |].
  rewrite (element_ref_present "events" σ (He eq_refl)). js_run. reflexivity.
Qed.

(** X15.  [updateSigninStatus] shows exactly one of the two buttons:
    signed in, the authorize button is hidden, the sign-out button
    shown, one listing is requested from the current instant and the
    list keeps its items until the answer arrives; signed out, it is the
    other way round, the list is emptied and nothing is requested. *)
Theorem updateSigninStatus_shows_one_button
    (isSignedIn : bool) (now : string) (σ : page) :
  present "authorize_button" σ -> present "signout_button" σ ->
  present "events" σ ->
  let σ' := fst (updateSigninStatus isSignedIn now σ) in
  snd (updateSigninStatus isSignedIn now σ) = inr tt
  /\ (display <$> document σ' !! "authorize_button")
     = Some (if isSignedIn then "none" else "inline-block")
  /\ (display <$> document σ' !! "signout_button")
     = Some (if isSignedIn then "inline-block" else "none")
  /\ children_of "events" σ'
     = (if isSignedIn then children_of "events" σ else Some [])
  /\ filter (fun ev => is_call ev = true) (skipn (length (trace σ)) (trace σ'))
     = (if isSignedIn
        then [Call (EventsList "primary" now false true 10 "startTime")]
        else []).
Proof.
  intros Ha Hs He. cbn zeta.
  rewrite (updateSigninStatus_run isSignedIn now σ Ha Hs (fun _ => He)).
  destruct Ha as [a Ha], Hs as [s Hs], He as [ul Hul].
  unfold children_of.
  destruct isSignedIn; cbn [fst snd document trace];
    rewrite skipn_app, skipn_all, Nat.sub_diag;
    repeat (rewrite ?lookup_alter_eq; rewrite ?lookup_alter_ne by discriminate);
    rewrite ?Ha, ?Hs, ?Hul; repeat split.
Qed.

Lemma updateSigninStatus_shows_one_button_witness :
  (display <$> document (fst (updateSigninStatus true "2026-11-02T08:00:00.000Z"
                                sample_page)) !! "authorize_button")
  = Some "none".
Proof.
  refine (proj1 (proj2 (updateSigninStatus_shows_one_button true
            "2026-11-02T08:00:00.000Z" sample_page _ _ _))); eexists; reflexivity.
Defined.

(** X16.  Reporting the same sign-in status again changes no element:
    on any page, whether or not it has the elements looked up, the
    document after two reports is the document after one. *)
Theorem updateSigninStatus_idempotent
    (isSignedIn : bool) (now now' : string) (σ : page) :
  document (fst (updateSigninStatus isSignedIn now'
                   (fst (updateSigninStatus isSignedIn now σ))))
  = document (fst (updateSigninStatus isSignedIn now σ)).
Proof.
  assert (Href : forall id, element_ref (document σ) id = Some id
                            \/ element_ref (document σ) id = None)
    by (intros id; unfold element_ref; destruct (document σ !! id); auto).
  unfold updateSigninStatus, listUpcomingEvents.
  destruct (Href "authorize_button") as [Ha | Ha],
           (Href "signout_button") as [Hs | Hs],
           (Href "events") as [He | He], isSignedIn.
  all: do 6 (js_run; rewrite ?Ha, ?Hs, ?He); try reflexivity.
  all: apply map_eq; intros i; rewrite !lookup_alter;
    repeat case_decide; subst; try congruence;
    destruct (document σ !! _); reflexivity.
Qed.

(** X17.  When the initialisation of the calendar client succeeds on a
    page that has the two buttons and the list, the status listener is
    registered and each button gets its handler as its [onclick],
    replacing one set before and keeping the listeners added otherwise;
    when it fails, one error is logged and the page is left as it was,
    so that the buttons stay without handler. *)
Theorem client_init_wires_buttons `{Host}
    (signedIn : bool) (now : string) (σ : page) (a s : element) :
  document σ !! "authorize_button" = Some a ->
  document σ !! "signout_button" = Some s ->
  present "events" σ ->
  let σ' := deliver (ClientInitSettled (Returns tt) signedIn now) σ in
  signinListeners σ' = (signinListeners σ ++ [UpdateSigninStatus])%list
  /\ (own_listeners <$> document σ' !! "authorize_button")
     = Some (clickListeners a ++ [HandleAuthClick])%list
  /\ (own_listeners <$> document σ' !! "signout_button")
     = Some (clickListeners s ++ [HandleSignoutClick])%list
  /\ (forall e,
        deliver (ClientInitSettled (Fails e) signedIn now) σ =
          Page (db σ) (document σ) (snapshotListeners σ) (signinListeners σ)
            (trace σ ++ [ConsoleError "Error initialising Google API client" e])).
Proof.
  intros Ha Hs He. cbn zeta.
  assert (Hra := element_ref_present "authorize_button" σ (ex_intro _ a Ha)).
  assert (Hrs := element_ref_present "signout_button" σ (ex_intro _ s Hs)).
  assert (Hre := element_ref_present "events" σ He).
  split; [| split; [| split]]; [.. | reflexivity].
  all: unfold deliver, host_run, initClient_settled, signin_listen,
         updateSigninStatus, listUpcomingEvents.
  all: destruct signedIn; do 4 (js_run; rewrite ?Hra, ?Hrs, ?Hre); try reflexivity.
  all: cbn;
    repeat (rewrite ?lookup_alter_eq; rewrite ?lookup_alter_ne by discriminate);
    rewrite ?Ha, ?Hs; reflexivity.
Qed.

Lemma client_init_wires_buttons_witness :
  signinListeners
    (@deliver sample_host
       (ClientInitSettled (Returns tt) false "2026-11-02T08:00:00.000Z") sample_page)
  = [UpdateSigninStatus].
Proof.
  refine (proj1 (@client_init_wires_buttons sample_host false
            "2026-11-02T08:00:00.000Z" sample_page blank blank _ _ _));
    try reflexivity.
  eexists; reflexivity.
Defined.

(** X18.  [initClient] never lets an error out of its promise chain,
    and a page that lacks one of the two buttons is left half wired:
    the error of the missing element is logged as a failure of the
    client, the status listener stays registered, and no element of the
    page has got a handler. *)
Theorem client_init_without_button
    (signedIn : bool) (now : string) (σ : page) :
  document σ !! "authorize_button" = None
  \/ document σ !! "signout_button" = None ->
  let σ' := fst (initClient_settled (Returns tt) signedIn now σ) in
  snd (initClient_settled (Returns tt) signedIn now σ) = inr tt
  /\ signinListeners σ' = (signinListeners σ ++ [UpdateSigninStatus])%list
  /\ (exists e,
        last (trace σ') = Some (ConsoleError "Error initialising Google API client" e))
  /\ (forall id e, document σ !! id = Some e ->
        (own_listeners <$> document σ' !! id) = Some (own_listeners e)).
Proof.
  intros Hnone. cbn zeta.
  assert (Href : forall id, element_ref (document σ) id = Some id
                            \/ element_ref (document σ) id = None)
    by (intros i; unfold element_ref; destruct (document σ !! i); auto).
  assert (Hcase : element_ref (document σ) "authorize_button" = None
                  \/ element_ref (document σ) "signout_button" = None)
    by (destruct Hnone as [Hn | Hn]; [left | right]; now apply element_ref_absent).
  unfold initClient_settled, signin_listen, updateSigninStatus, listUpcomingEvents.
  destruct (Href "authorize_button") as [Ha | Ha],
           (Href "signout_button") as [Hs | Hs];
    try (destruct Hcase; congruence).
  all: destruct signedIn; do 3 (js_run; rewrite ?Ha, ?Hs); cbn.
  all: split; [reflexivity |]; split; [reflexivity |]; split;
    [rewrite last_app; cbn; eauto |].
  all: intros id e Hid; rewrite ?lookup_alter; repeat case_decide; subst;
    rewrite Hid; reflexivity.
Qed.

Lemma client_init_without_button_witness :
  snd (initClient_settled (Returns tt) true "2026-11-02T08:00:00.000Z"
         (Page None ∅ [] [] [])) = inr tt.
Proof.
  refine (proj1 (client_init_without_button true "2026-11-02T08:00:00.000Z"
                   (Page None ∅ [] [] []) _)).
  left; reflexivity.
Defined.

Lemma alter_absent {A : Type} (f : A -> A) (i : string) (m : gmap string A) :
  m !! i = None -> alter f i m = m.
Proof.
  intros Hi. apply map_eq. intros j. rewrite lookup_alter.
  case_decide; subst; [now rewrite Hi | reflexivity].
Qed.

(** The chain of [listUpcomingEvents] on the elements of the page. *)
Lemma listUpcomingEvents_settled_document `{Host}
    (ans : answer events_result) (σ : page) :
  exists σ',
    listUpcomingEvents_settled ans σ = (σ', inr tt)
    /\ db σ' = db σ
    /\ snapshotListeners σ' = snapshotListeners σ
    /\ signinListeners σ' = signinListeners σ
    /\ document σ' =
         match ans with
         | Returns result =>
             alter (with_children (events_rendering result)) "events" (document σ)
         | Fails _ => document σ
         end.
Proof.
  unfold listUpcomingEvents_settled, listUpcomingEvents_then, events_rendering.
  destruct ans as [[its] | e]; [| js_run; eexists; repeat split].
  destruct (document σ !! "events") as [ul |] eqn:Hul.
  - assert (Href := element_ref_present "events" σ (ex_intro _ ul Hul)).
    unfold then_catch, try_catch, await, mbind, js_bind, getElementById.
    cbn [items]. rewrite Href. unfold mutate at 1. cbn beta iota.
    destruct its as [[| ev evs] |].
    + cbn. eexists. repeat split. cbn. now rewrite alter_alter_eq.
    + cbn [length Nat.ltb Nat.leb]. rewrite forEach_AppendChild_run.
      eexists. repeat split. cbn. now rewrite alter_alter_eq.
    + cbn. eexists. repeat split.
  - assert (Href := element_ref_absent "events" σ Hul).
    rewrite alter_absent by exact Hul.
    unfold then_catch, try_catch, await, mbind, js_bind, getElementById.
    rewrite Href. cbn. eexists. repeat split.
Qed.

(** X19.  The list of events shows the last listing that arrived: a
    listing rendered after any earlier answer leaves the elements of the
    page as rendering it alone does, and a rejected listing leaves them
    as they were, earlier events included. *)
Theorem listing_replaces_previous `{Host}
    (earlier : answer events_result) (result : events_result) (σ : page) :
  document (fst (listUpcomingEvents_settled (Returns result)
                   (fst (listUpcomingEvents_settled earlier σ))))
  = document (fst (listUpcomingEvents_settled (Returns result) σ))
  /\ (forall e, document (fst (listUpcomingEvents_settled (Fails e) σ)) = document σ).
Proof.
  split.
  - destruct (listUpcomingEvents_settled_document earlier σ)
      as (σ1 & Hrun1 & _ & _ & _ & Hdoc1).
    destruct (listUpcomingEvents_settled_document (Returns result) σ1)
      as (σ2 & Hrun2 & _ & _ & _ & Hdoc2).
    destruct (listUpcomingEvents_settled_document (Returns result) σ)
      as (σ3 & Hrun3 & _ & _ & _ & Hdoc3).
    rewrite Hrun1. cbn [fst]. rewrite Hrun2, Hrun3. cbn [fst].
    rewrite Hdoc2, Hdoc3, Hdoc1.
    destruct earlier as [r1 | e]; [| reflexivity].
    now rewrite alter_alter_eq.
  - intros e.
    destruct (listUpcomingEvents_settled_document (Fails e) σ)
      as (σ1 & Hrun1 & _ & _ & _ & Hdoc1).
    now rewrite Hrun1.
Qed.

Lemma event_item_inert `{Host} (event : calendar_event) (path : list nat) :
  node_click_path path (event_item event) = [].
Proof.
  unfold event_item, createElement, node_setTextContent, text_nodes.
  destruct path as [| i path]; [reflexivity |]. cbn [node_click_path].
  destruct (Str.truthy _); [| reflexivity].
  destruct i as [| i]; [| reflexivity]. cbn. now destruct path.
Qed.

(** X20.  The items of a rendered listing carry no action: when the
    list of events itself has no handler, a click anywhere in it, on an
    item or on the placeholder, runs nothing. *)
Theorem events_list_is_inert `{Host}
    (result : events_result) (σ : page) (ul : element)
    (path : list nat) (ans : answer unit) :
  document σ !! "events" = Some ul -> own_listeners ul = [] ->
  let σ' := fst (listUpcomingEvents_settled (Returns result) σ) in
  deliver (Click "events" path ans) σ' = σ'.
Proof.
  intros Hul Hown. cbn zeta.
  destruct (listUpcomingEvents_settled_document (Returns result) σ)
    as (σ1 & Hrun1 & _ & _ & _ & Hdoc1).
  rewrite Hrun1. cbn [fst]. unfold deliver.
  rewrite Hdoc1, lookup_alter_eq, Hul. cbn [fmap option_fmap option_map].
  assert (Hl : click_path path (with_children (events_rendering result) ul) = []).
  { unfold click_path. destruct path as [| i path]; [exact Hown |].
    change (own_listeners (with_children _ ul)) with (own_listeners ul).
    rewrite Hown. cbn [childNodes with_children]. unfold events_rendering.
    destruct (items result) as [[| ev evs] |].
    - destruct i as [| i]; [| reflexivity]. cbn [lookup list_lookup].
      destruct path as [| [| j] path]; try reflexivity. now destruct path.
    - rewrite list_lookup_fmap.
      destruct ((ev :: evs) !! i) as [ev' |]; [| reflexivity].
      cbn [fmap option_fmap option_map]. now rewrite event_item_inert.
    - reflexivity. }
  now rewrite Hl.
Qed.

Lemma events_list_is_inert_witness :
  let σ' := fst (@listUpcomingEvents_settled sample_host
                   (Returns (EventsResult (Some eleven_events))) sample_page) in
  @deliver sample_host (Click "events" [3%nat; 0%nat] (Returns tt)) σ' = σ'.
Proof.
  exact (@events_list_is_inert sample_host (EventsResult (Some eleven_events))
           sample_page blank [3%nat; 0%nat] (Returns tt) eq_refl eq_refl).
Defined.

(** ** The page over time *)

Lemma steady_refl (σ : page) : steady σ σ.
Proof. repeat split; reflexivity. Qed.

Lemma steady_trans (σ1 σ2 σ3 : page) :
  steady σ1 σ2 -> steady σ2 σ3 -> steady σ1 σ3.
Proof.
  intros (Hd & Hm & Hs & Hg & Ht) (Hd' & Hm' & Hs' & Hg' & Ht').
  repeat split; try congruence; etrans; eauto.
Qed.

Lemma steady_trace (σ : page) (doc : gmap string element) (evs : list effect) :
  dom doc = dom (document σ) ->
  steady σ (Page (db σ) doc (snapshotListeners σ) (signinListeners σ)
              (trace σ ++ evs)).
Proof.
  intros Hdom. repeat split; cbn; try reflexivity; try exact Hdom.
  now apply prefix_app_r.
Qed.

Lemma orderly_step {A : Type} (m : js A) :
  (forall σ, exists doc sl gl new,
     fst (m σ) = Page (db σ) doc (snapshotListeners σ ++ sl)
                   (signinListeners σ ++ gl) (trace σ ++ new)
     /\ dom doc = dom (document σ)
     /\ Forall (fun ev => is_uncaught ev = false) new) ->
  orderly m.
Proof.
  intros Hm σ. destruct (Hm σ) as (doc & sl & gl & new & -> & Hdom & Hnew).
  split; [| eauto].
  repeat split; cbn; try exact Hdom; now apply prefix_app_r.
Qed.

Lemma orderly_ret {A : Type} (a : A) : orderly (mret a).
Proof.
  apply orderly_step. intros σ. exists (document σ), [], [], [].
  cbn. rewrite !app_nil_r. now destruct σ.
Qed.

Lemma orderly_throw {A : Type} (e : error) : orderly (@throw A e).
Proof.
  apply orderly_step. intros σ. exists (document σ), [], [], [].
  cbn. rewrite !app_nil_r. now destruct σ.
Qed.

Lemma orderly_seq {A B : Type} (m : js A) (σ : page) (σ2 : page) :
  orderly m ->
  (steady (fst (m σ)) σ2
   /\ exists new, trace σ2 = (trace (fst (m σ)) ++ new)%list
                  /\ Forall (fun ev => is_uncaught ev = false) new) ->
  steady σ σ2
  /\ exists new, trace σ2 = (trace σ ++ new)%list
                 /\ Forall (fun ev => is_uncaught ev = false) new.
Proof.
  intros Hm [Hs2 (new2 & Ht2 & Hn2)].
  destruct (Hm σ) as [Hs1 (new1 & Ht1 & Hn1)].
  split; [eapply steady_trans; eauto |].
  exists (new1 ++ new2)%list. rewrite Ht2, Ht1, app_assoc.
  split; [reflexivity | now apply Forall_app].
Qed.

Lemma orderly_bind {A B : Type} (m : js A) (f : A -> js B) :
  orderly m -> (forall a, orderly (f a)) -> orderly (m ≫= f).
Proof.
  intros Hm Hf σ. unfold mbind, js_bind.
  pose proof (fun σ2 => orderly_seq (B := B) m σ σ2 Hm) as Hseq.
  pose proof (Hm σ) as Hmσ.
  destruct (m σ) as [σ1 [e | a]]; cbn [fst] in *; [exact Hmσ |].
  apply Hseq, Hf.
Qed.

Lemma orderly_try_catch {A : Type} (body : js A) (handler : error -> js A) :
  orderly body -> (forall e, orderly (handler e)) ->
  orderly (try_catch body handler).
Proof.
  intros Hm Hh σ. unfold try_catch.
  pose proof (fun σ2 => orderly_seq (B := A) body σ σ2 Hm) as Hseq.
  pose proof (Hm σ) as Hmσ.
  destruct (body σ) as [σ1 [e | a]]; cbn [fst] in *; [| exact Hmσ].
  apply Hseq, Hh.
Qed.

Lemma orderly_emit (ev : effect) : is_uncaught ev = false -> orderly (emit ev).
Proof.
  intros Hev. apply orderly_step. intros σ. exists (document σ), [], [], [ev].
  cbn. rewrite !app_nil_r. auto.
Qed.

Lemma orderly_await {A : Type} (ans : answer A) : orderly (await ans).
Proof. destruct ans; [apply orderly_ret | apply orderly_throw]. Qed.

Lemma orderly_call {A : Type} (r : request) (ans : answer A) : orderly (call r ans).
Proof.
  apply orderly_bind; [now apply orderly_emit | intros _; apply orderly_await].
Qed.

Lemma orderly_getElementById (id : string) : orderly (getElementById id).
Proof. apply (orderly_ret (element_ref _ id)) || (intros σ; apply (orderly_ret (element_ref (document σ) id) σ)). Qed.

Lemma orderly_get_value (target : option string) : orderly (get_value target).
Proof.
  destruct target as [id |]; [| apply orderly_throw].
  intros σ. unfold get_value.
  destruct (document σ !! id);
    [apply (orderly_ret (value e) σ) | apply (orderly_throw (A := string) _ σ)].
Qed.

Lemma orderly_mutate (target : option string) (m : mutation) :
  orderly (mutate target m).
Proof.
  destruct target as [id |]; [| apply orderly_throw].
  apply orderly_step. intros σ.
  exists (alter (apply_mutation m) id (document σ)), [], [], [Write id m].
  cbn. rewrite !app_nil_r. split; [reflexivity |]. split; [| auto].
  apply dom_alter_L.
Qed.

Lemma orderly_forEach {A : Type} (l : list A) (f : A -> js unit) :
  (forall x, orderly (f x)) -> orderly (forEach l f).
Proof.
  intros Hf. induction l as [| x l IH]; cbn [forEach].
  - apply orderly_ret.
  - apply orderly_bind; auto.
Qed.

Lemma orderly_signin_listen (cb : callback) : orderly (signin_listen cb).
Proof.
  apply orderly_step. intros σ.
  exists (document σ), [], [cb], [Call (SigninListen cb)].
  cbn. rewrite !app_nil_r. auto.
Qed.

(** Discharges [orderly] goals along the structure of a computation. *)
Ltac orderly_tac :=
  repeat first
    [ apply orderly_ret
    | apply orderly_throw
    | apply orderly_getElementById
    | apply orderly_get_value
    | apply orderly_await
    | apply orderly_signin_listen
    | apply orderly_emit; reflexivity
    | apply orderly_call
    | apply orderly_mutate
    | apply orderly_bind; [| intros ?]
    | apply orderly_try_catch; [| intros ?]
    | apply orderly_forEach; intros ?
    | match goal with
      | |- orderly (if ?b then _ else _) => destruct b
      | |- orderly (match ?x with _ => _ end) => destruct x
      end ].

Lemma orderly_run_listener (h : listener) (ans : answer unit) :
  orderly (run_listener h ans).
Proof.
  destruct h; unfold run_listener, deleteNoteClick, saveNoteClick, handleAuthClick,
    handleSignoutClick, console_error; orderly_tac.
Qed.

Lemma orderly_run_snapshot_callback (cb : callback) (snapshot : list docSnap) :
  orderly (run_snapshot_callback cb snapshot).
Proof. destruct cb; unfold run_snapshot_callback, renderNotes; orderly_tac. Qed.

Lemma orderly_run_signin_callback (cb : callback) (b : bool) (now : string) :
  orderly (run_signin_callback cb b now).
Proof.
  destruct cb; unfold run_signin_callback, updateSigninStatus, listUpcomingEvents;
    orderly_tac.
Qed.

Lemma orderly_initClient_settled (ans : answer unit) (b : bool) (now : string) :
  orderly (initClient_settled ans b now).
Proof.
  unfold initClient_settled, then_catch, updateSigninStatus, listUpcomingEvents,
    console_error.
  orderly_tac.
Qed.

Lemma orderly_listUpcomingEvents_settled `{Host} (ans : answer events_result) :
  orderly (listUpcomingEvents_settled ans).
Proof.
  unfold listUpcomingEvents_settled, listUpcomingEvents_then, then_catch,
    console_error.
  orderly_tac.
Qed.

Lemma steady_host_run (m : js unit) (σ : page) :
  orderly m -> steady σ (host_run m σ).
Proof.
  intros Hm. destruct (Hm σ) as [Hs _]. unfold host_run.
  destruct (m σ) as [σ1 [e | []]]; cbn [fst] in Hs; [| exact Hs].
  eapply steady_trans; [exact Hs |]. apply steady_trace. reflexivity.
Qed.

Lemma steady_fold {A : Type} (f : page -> A -> page) (l : list A) :
  (forall σ x, steady σ (f σ x)) ->
  forall σ, steady σ (fold_left f l σ).
Proof.
  intros Hf. induction l as [| x l IH]; intros σ; cbn [fold_left].
  - apply steady_refl.
  - eapply steady_trans; [apply Hf | apply IH].
Qed.

Lemma steady_deliver `{Host} (ev : page_event) (σ : page) :
  steady σ (deliver ev σ).
Proof.
  destruct ev; unfold deliver.
  - destruct (document σ !! id); [| apply steady_refl].
    apply steady_fold. intros σ1 h. apply steady_host_run, orderly_run_listener.
  - apply steady_fold. intros σ1 l.
    destruct (String.eqb _ _); [| apply steady_refl].
    apply steady_host_run, orderly_run_snapshot_callback.
  - apply steady_fold. intros σ1 cb.
    apply steady_host_run, orderly_run_signin_callback.
  - apply steady_host_run. unfold initClient. now apply orderly_emit.
  - apply steady_host_run, orderly_initClient_settled.
  - apply steady_host_run, orderly_listUpcomingEvents_settled.
Qed.

(** X21.  Whatever happens on the page once the script is loaded, in
    whatever order: the store handle never changes, the identifiers
    under which the page's elements are found stay the same, no
    listener registered with the store or with the sign-in state is
    ever dropped, and the effects already produced stay as they are. *)
Theorem page_events_keep_page_steady `{Host} (evs : list page_event) (σ : page) :
  steady σ (deliver_all evs σ).
Proof.
  unfold deliver_all. apply steady_fold. intros σ1 ev. apply steady_deliver.
Qed.

Lemma well_formed_steady (σ σ' : page) :
  steady σ σ' -> well_formed σ -> well_formed σ'.
Proof.
  intros (_ & Hdom & _) Hwf. unfold well_formed, present in *.
  eapply Forall_impl; [exact Hwf |]. intros id Hid. cbn beta in *.
  apply elem_of_dom. rewrite Hdom. now apply elem_of_dom.
Qed.

Lemma well_formed_present (σ : page) (id : string) :
  well_formed σ -> In id required -> present id σ.
Proof.
  intros Hwf Hin. unfold well_formed in Hwf. rewrite Forall_forall in Hwf.
  apply Hwf. now apply list_elem_of_In.
Qed.

(** ** The bootstrap *)

(** [fetchWeather] is its request followed by what runs when the fetch
    settles. *)
Lemma fetchWeather_split (lat lon : number) (tempElemId descElemId : string)
    (net : answer response) (σ : page) :
  fetchWeather lat lon tempElemId descElemId net σ =
    fetchWeather_settled tempElemId descElemId net
      (fst (fetchWeather_request lat lon σ)).
Proof.
  unfold fetchWeather, fetchWeather_settled, fetchWeather_request, try_catch, call,
    emit, mbind, js_bind.
  cbn [fst]. destruct net as [r | e]; reflexivity.
Qed.

Lemma fetchWeather_settled_run (tempElemId descElemId : string)
    (net : answer response) (σ : page) :
  present tempElemId σ -> present descElemId σ ->
  exists new,
    fetchWeather_settled tempElemId descElemId net σ =
      (let '(_, t, d) := weather_rendering net in
       Page (db σ)
         (alter (apply_mutation (SetTextContent d)) descElemId
            (alter (apply_mutation (SetTextContent t)) tempElemId (document σ)))
         (snapshotListeners σ) (signinListeners σ)
         (trace σ ++ new),
       inr tt).
Proof.
  intros Ht%element_ref_present Hd%element_ref_present.
  unfold fetchWeather_settled, weather_rendering, get_current_weather.
  destruct net as [r | e]; js_run;
    [destruct (ok r); js_run; [destruct (json r) as [[| [c |]] | e]; js_run |] |].
  all: rewrite ?Ht; js_run; rewrite ?Hd; js_run.
  all: eexists; reflexivity.
Qed.

Lemma initNotes_completes (σ : page) :
  present "save-note" σ ->
  snd (initNotes σ) = inr tt
  /\ forall id, present id σ -> present id (fst (initNotes σ)).
Proof.
  intros Hp. destruct (db σ) as [handle |] eqn:Hdb.
  - rewrite (initNotes_enabled_run handle _ Hdb Hp). split; [reflexivity |].
    intros id Hid. unfold present. cbn. now apply present_alter.
  - rewrite (initNotes_disabled_run _ Hdb Hp). split; [reflexivity |].
    intros id Hid. unfold present. cbn. now do 2 apply present_alter.
Qed.

Lemma initGoogle_run (w : window) :
  present "save-note" (the_page w) ->
  initGoogle w =
    (let σ1 := fst (initNotes (the_page w)) in
     Window
       (Page (db σ1) (document σ1) (snapshotListeners σ1) (signinListeners σ1)
          (trace σ1 ++
           [ Call (Fetch (weather_url (Number false 561572 (-4))
                            (Number false 102107 (-4))));
             Call (Fetch (weather_url (Number false 410582 (-4))
                            (Number true 747527 (-4)))) ]))
       (gapiLoads w ++ [("client:auth2", InitClient)])
       (suspended w ++ [("aarhus-temp", "aarhus-desc");
                        ("newton-temp", "newton-desc")]),
     inr tt).
Proof.
  intros Hp. cbn zeta. unfold initGoogle. cbn [the_page gapiLoads suspended].
  destruct (initNotes_completes _ Hp) as [Hrun _].
  destruct (initNotes (the_page w)) as [σ1 [e | []]]; [discriminate |].
  unfold start_fetchWeather, fetchWeather_request, emit.
  cbn [fst snd the_page gapiLoads suspended document trace db snapshotListeners
       signinListeners].
  now rewrite <- !app_assoc.
Qed.

(** X23.  On a page with a save button, [window.initGoogle] asks the
    loader for the client with [initClient] as callback, initialises the
    notes, and then issues the two weather requests, Aarhus before
    Newton, each left suspended with its own pair of slots; nothing is
    written to the page by then beyond what [initNotes] wrote. *)
Theorem initGoogle_starts_components (w : window) :
  present "save-note" (the_page w) ->
  let σ1 := fst (initNotes (the_page w)) in
  let w' := fst (initGoogle w) in
  snd (initGoogle w) = inr tt
  /\ gapiLoads w' = (gapiLoads w ++ [("client:auth2", InitClient)])%list
  /\ suspended w' =
       (suspended w ++ [("aarhus-temp", "aarhus-desc");
                        ("newton-temp", "newton-desc")])%list
  /\ document (the_page w') = document σ1
  /\ trace (the_page w') =
       (trace σ1 ++
        [ Call (Fetch "https://api.open-meteo.com/v1/forecast?latitude=56.1572&longitude=10.2107&current_weather=true&timezone=America/New_York");
          Call (Fetch "https://api.open-meteo.com/v1/forecast?latitude=41.0582&longitude=-74.7527&current_weather=true&timezone=America/New_York") ])%list.
Proof.
  intros Hp. cbn zeta. rewrite (initGoogle_run w Hp). repeat split.
Qed.

Lemma initGoogle_starts_components_witness :
  suspended (fst (initGoogle (Window sample_page [] [])))
  = [("aarhus-temp", "aarhus-desc"); ("newton-temp", "newton-desc")].
Proof.
  refine (proj1 (proj2 (proj2 (initGoogle_starts_components
                                 (Window sample_page [] []) _)))).
  eexists; reflexivity.
Defined.

(** X24.  On a page without a save button [window.initGoogle] ends in
    the exception of [initNotes]: the loader has been asked for the
    client, but no weather request is issued and no call is left
    suspended, so the weather slots are never filled. *)
Theorem initGoogle_without_save_button (w : window) :
  document (the_page w) !! "save-note" = None ->
  let w' := fst (initGoogle w) in
  (exists msg, snd (initGoogle w) = inl (TypeError msg))
  /\ gapiLoads w' = (gapiLoads w ++ [("client:auth2", InitClient)])%list
  /\ suspended w' = suspended w
  /\ document (the_page w') = document (the_page w)
  /\ forall url, ~ In (Call (Fetch url))
                   (skipn (length (trace (the_page w))) (trace (the_page w'))).
Proof.
  intros Hb%element_ref_absent. cbn zeta.
  unfold initGoogle, initNotes, get_db, onSnapshot, collection.
  cbn [the_page gapiLoads suspended].
  destruct (db (the_page w)) as [handle |] eqn:Hdb; js_run; rewrite Hdb; js_run;
    rewrite Hb; js_run; cbn [the_page gapiLoads suspended trace document].
  - split; [eexists; reflexivity |]. repeat split.
    rewrite skipn_app, skipn_all, Nat.sub_diag. cbn.
    intros url [[=] | []].
  - split; [eexists; reflexivity |]. repeat split.
    rewrite skipn_all. cbn. tauto.
Qed.

Lemma initGoogle_without_save_button_witness :
  suspended (fst (initGoogle (Window (Page None ∅ [] [] []) [] []))) = [].
Proof.
  exact (proj1 (proj2 (proj2 (initGoogle_without_save_button
                                (Window (Page None ∅ [] [] []) [] []) eq_refl)))).
Defined.

Lemma weather_settles_run (i : nat) (tempElemId descElemId : string)
    (net : answer response) (w : window) :
  suspended w !! i = Some (tempElemId, descElemId) ->
  present tempElemId (the_page w) -> present descElemId (the_page w) ->
  suspended (weather_settles i net w) = delete i (suspended w)
  /\ document (the_page (weather_settles i net w)) =
       alter (apply_mutation (SetTextContent (snd (weather_rendering net))))
         descElemId
         (alter (apply_mutation (SetTextContent (snd (fst (weather_rendering net)))))
            tempElemId (document (the_page w))).
Proof.
  intros Hi Ht Hd. unfold weather_settles, host_run. rewrite Hi.
  destruct (fetchWeather_settled_run tempElemId descElemId net (the_page w) Ht Hd)
    as [new ->].
  destruct (weather_rendering net) as [[err t] d]. split; reflexivity.
Qed.

(** X25.  After [window.initGoogle], the two weather calls complete in
    whichever order their fetches settle: either way no call is left
    suspended, the elements of the page are the same, and each city has
    its own answer in its own slots. *)
Theorem weather_completes_in_any_order (w : window)
    (aarhus newton : answer response) :
  present "save-note" (the_page w) ->
  present "aarhus-temp" (the_page w) -> present "aarhus-desc" (the_page w) ->
  present "newton-temp" (the_page w) -> present "newton-desc" (the_page w) ->
  suspended w = [] ->
  let w' := fst (initGoogle w) in
  let aarhus_first := weather_settles 0 newton (weather_settles 0 aarhus w') in
  let newton_first := weather_settles 0 aarhus (weather_settles 1 newton w') in
  suspended aarhus_first = [] /\ suspended newton_first = []
  /\ document (the_page aarhus_first) = document (the_page newton_first)
  /\ slot_text "aarhus-temp" (the_page aarhus_first)
     = Some (snd (fst (weather_rendering aarhus)))
  /\ slot_text "aarhus-desc" (the_page aarhus_first)
     = Some (snd (weather_rendering aarhus))
  /\ slot_text "newton-temp" (the_page aarhus_first)
     = Some (snd (fst (weather_rendering newton)))
  /\ slot_text "newton-desc" (the_page aarhus_first)
     = Some (snd (weather_rendering newton)).
Proof.
  intros Hs Hat Had Hnt Hnd Hsus. cbn zeta.
  rewrite (initGoogle_run w Hs), Hsus. cbn [fst app].
  destruct (initNotes_completes _ Hs) as [_ Hkeep].
  apply Hkeep in Hat, Had, Hnt, Hnd.
  set (σ2 := Page _ _ _ _ _).
  set (w2 := Window σ2 _ _).
  assert (Hdoc2 : document σ2 = document (fst (initNotes (the_page w))))
    by reflexivity.
  assert (Hp : forall id, present id (fst (initNotes (the_page w))) ->
                          present id (the_page w2))
    by (intros id Hid; exact Hid).
  destruct (weather_settles_run 0 "aarhus-temp" "aarhus-desc" aarhus w2
              eq_refl (Hp _ Hat) (Hp _ Had)) as [Hsa Hda].
  destruct (weather_settles_run 1 "newton-temp" "newton-desc" newton w2
              eq_refl (Hp _ Hnt) (Hp _ Hnd)) as [Hsn Hdn].
  destruct (weather_settles_run 0 "newton-temp" "newton-desc" newton
              (weather_settles 0 aarhus w2)) as [Hsan Hdan];
    [now rewrite Hsa | unfold present; rewrite Hda; now do 2 apply present_alter ..|].
  destruct (weather_settles_run 0 "aarhus-temp" "aarhus-desc" aarhus
              (weather_settles 1 newton w2)) as [Hsna Hdna];
    [now rewrite Hsn | unfold present; rewrite Hdn; now do 2 apply present_alter ..|].
  split; [now rewrite Hsan, Hsa |]. split; [now rewrite Hsna, Hsn |].
  destruct Hat as [at_ Hat], Had as [ad Had], Hnt as [nt Hnt], Hnd as [nd Hnd].
  unfold slot_text. rewrite Hdan, Hdna, Hda, Hdn. cbn [the_page document σ2 w2].
  subst σ2 w2. cbn [the_page document].
  split; [| repeat split].
  - rewrite (alter_alter_ne _ _ _ "newton-temp" "aarhus-desc") by discriminate.
    rewrite (alter_alter_ne _ _ _ "newton-temp" "aarhus-temp") by discriminate.
    rewrite (alter_alter_ne _ _ _ "newton-desc" "aarhus-desc") by discriminate.
    rewrite (alter_alter_ne _ _ _ "newton-desc" "aarhus-temp") by discriminate.
    reflexivity.
  - repeat (rewrite ?lookup_alter_eq; rewrite ?lookup_alter_ne by discriminate).
    rewrite Hat. cbn. unfold textContent. cbn. now rewrite textContent_text_nodes.
  - repeat (rewrite ?lookup_alter_eq; rewrite ?lookup_alter_ne by discriminate).
    rewrite Had. cbn. unfold textContent. cbn. now rewrite textContent_text_nodes.
  - repeat (rewrite ?lookup_alter_eq; rewrite ?lookup_alter_ne by discriminate).
    rewrite Hnt. cbn. unfold textContent. cbn. now rewrite textContent_text_nodes.
  - repeat (rewrite ?lookup_alter_eq; rewrite ?lookup_alter_ne by discriminate).
    rewrite Hnd. cbn. unfold textContent. cbn. now rewrite textContent_text_nodes.
Qed.

Lemma weather_completes_in_any_order_witness :
  let w' := fst (initGoogle (Window sample_page [] [])) in
  slot_text "newton-temp"
    (the_page (weather_settles 0 (Fails (Failure "offline"))
                 (weather_settles 0
                    (Returns (Response true (Returns (JsonObject None)))) w')))
  = Some "Error fetching weather".
Proof.
  refine (proj1 (proj2 (proj2 (proj2 (proj2 (proj2
    (weather_completes_in_any_order (Window sample_page [] [])
       (Returns (Response true (Returns (JsonObject None))))
       (Fails (Failure "offline")) _ _ _ _ _ eq_refl))))))).
  all: eexists; reflexivity.
Defined.

(** A weather call started by the bootstrap and resumed when its fetch
    settles does to the page what [fetchWeather] does when run in one go
    with the same answer, so that what holds of [fetchWeather] holds of
    the two calls of the bootstrap. *)
Lemma started_weather_call_is_fetchWeather
    (lat lon : number) (tempElemId descElemId : string)
    (net : answer response) (w : window) :
  let started := start_fetchWeather lat lon tempElemId descElemId w in
  let settled := weather_settles (length (suspended w)) net started in
  the_page settled
    = host_run (fetchWeather lat lon tempElemId descElemId net) (the_page w)
  /\ suspended settled = suspended w.
Proof.
  cbn zeta. unfold weather_settles, start_fetchWeather.
  cbn [suspended the_page gapiLoads].
  rewrite list_lookup_middle by reflexivity. cbn [the_page suspended].
  unfold host_run at 2. rewrite fetchWeather_split. split; [reflexivity |].
  rewrite delete_middle. apply app_nil_r.
Qed.

(** X26.  The calendar follows the sign-in state.  Once the client is
    initialised on a page with the two buttons and the list, a change to
    signed in requests one listing from the instant of the change; the
    listing that arrives is what the list shows; and a change to signed
    out empties the list. *)
Theorem calendar_follows_signin `{Host}
    (now now1 now2 : string) (result : events_result) (σ : page) :
  present "authorize_button" σ -> present "signout_button" σ ->
  present "events" σ -> signinListeners σ = [] ->
  let σ1 := deliver (ClientInitSettled (Returns tt) false now) σ in
  let σ2 := deliver (SigninChanged true now1) σ1 in
  let σ3 := deliver (EventsListSettled (Returns result)) σ2 in
  let σ4 := deliver (SigninChanged false now2) σ3 in
  trace σ2 =
    (trace σ1 ++
     [ Write "authorize_button" (SetDisplay "none");
       Write "signout_button" (SetDisplay "inline-block");
       Call (EventsList "primary" now1 false true 10 "startTime") ])%list
  /\ children_of "events" σ2 = Some []
  /\ children_of "events" σ3 = Some (events_rendering result)
  /\ children_of "events" σ4 = Some [].
Proof.
  intros Ha Hs He Hl. cbn zeta.
  set (σ1 := deliver (ClientInitSettled (Returns tt) false now) σ).
  assert (H1 : signinListeners σ1 = [UpdateSigninStatus]
               /\ children_of "events" σ1 = Some []
               /\ dom (document σ1) = dom (document σ)).
  { subst σ1.
    assert (Hra := element_ref_present _ _ Ha).
    assert (Hrs := element_ref_present _ _ Hs).
    assert (Hre := element_ref_present _ _ He).
    destruct He as [ul Hul].
    unfold deliver, host_run, initClient_settled, signin_listen,
      updateSigninStatus, children_of.
    do 4 (js_run; rewrite ?Hra, ?Hrs, ?Hre). cbn. rewrite Hl.
    split; [reflexivity |]. split.
    - repeat (rewrite ?lookup_alter_eq; rewrite ?lookup_alter_ne by discriminate).
      now rewrite Hul.
    - now rewrite !dom_alter_L. }
  destruct H1 as (Hl1 & Hch1 & Hdom1).
  assert (Hkeep : forall id σ', dom (document σ') = dom (document σ) ->
                                present id σ -> present id σ').
  { intros id σ' Hdom Hid. apply elem_of_dom. rewrite Hdom. now apply elem_of_dom. }
  assert (Ha1 := Hkeep _ _ Hdom1 Ha). assert (Hs1 := Hkeep _ _ Hdom1 Hs).
  assert (He1 := Hkeep _ _ Hdom1 He).
  set (σ2 := deliver (SigninChanged true now1) σ1).
  assert (H2 : σ2 = fst (updateSigninStatus true now1 σ1)).
  { subst σ2. unfold deliver. rewrite Hl1. cbn [fold_left run_signin_callback].
    unfold host_run.
    now rewrite (updateSigninStatus_run true now1 σ1 Ha1 Hs1 (fun _ => He1)). }
  rewrite (updateSigninStatus_run true now1 σ1 Ha1 Hs1 (fun _ => He1)) in H2.
  cbn [fst] in H2.
  assert (Hl2 : signinListeners σ2 = [UpdateSigninStatus]) by now rewrite H2.
  assert (Hch2 : children_of "events" σ2 = Some []).
  { rewrite H2. unfold children_of in *. cbn.
    now rewrite !lookup_alter_ne by discriminate. }
  assert (Hdom2 : dom (document σ2) = dom (document σ))
    by (rewrite H2; cbn; now rewrite !dom_alter_L).
  split; [now rewrite H2 |]. split; [exact Hch2 |].
  set (σ3 := deliver (EventsListSettled (Returns result)) σ2).
  destruct (listUpcomingEvents_settled_document (Returns result) σ2)
    as (σ3' & Hrun3 & _ & _ & Hl3 & Hdoc3).
  assert (H3 : σ3 = σ3') by (subst σ3; unfold deliver, host_run; now rewrite Hrun3).
  clearbody σ3. subst σ3'.
  assert (Hdom3 : dom (document σ3) = dom (document σ))
    by (rewrite Hdoc3, dom_alter_L; exact Hdom2).
  split.
  - unfold children_of in *. rewrite Hdoc3, lookup_alter_eq.
    destruct (document σ2 !! "events"); [reflexivity | discriminate].
  - unfold deliver. rewrite Hl3, Hl2.
    cbn [fold_left run_signin_callback]. unfold host_run.
    rewrite (updateSigninStatus_run false now2 σ3)
      by (try intros _; eapply Hkeep; eauto).
    unfold children_of. cbn [document]. rewrite lookup_alter_eq.
    destruct (Hkeep "events" σ3 Hdom3 He) as [ul3 Hul3].
    rewrite !lookup_alter_ne by discriminate. now rewrite Hul3.
Qed.

Lemma calendar_follows_signin_witness :
  children_of "events"
    (@deliver sample_host (EventsListSettled (Returns (EventsResult (Some []))))
       (@deliver sample_host (SigninChanged true "2026-11-02T09:00:00.000Z")
          (@deliver sample_host
             (ClientInitSettled (Returns tt) false "2026-11-02T08:00:00.000Z")
             sample_page)))
  = Some [placeholder_item].
Proof.
  refine (proj1 (proj2 (proj2 (@calendar_follows_signin sample_host
            "2026-11-02T08:00:00.000Z" "2026-11-02T09:00:00.000Z"
            "2026-11-02T10:00:00.000Z" (EventsResult (Some []))
            sample_page _ _ _ eq_refl)))).
  all: eexists; reflexivity.
Defined.

(** ** Uncaught errors *)

Lemma uncaught_matched_calm (added : list effect) :
  Forall (fun ev => is_uncaught ev = false) added ->
  forall pending, uncaught_matched pending added = true.
Proof.
  induction 1 as [| ev added Hev _ IH]; intros pending; [reflexivity |].
  cbn [uncaught_matched]. rewrite Hev. now destruct (is_signin_call ev).
Qed.

Lemma uncaught_matched_app (a b : list effect) :
  (forall pending, uncaught_matched pending a = true) ->
  (forall pending, uncaught_matched pending b = true) ->
  forall pending, uncaught_matched pending (a ++ b) = true.
Proof.
  intros Ha Hb pending. specialize (Ha pending). revert pending Ha.
  induction a as [| ev a IH]; intros pending Ha; [apply Hb |].
  cbn [app uncaught_matched] in *.
  destruct (is_signin_call ev); [now apply IH |].
  destruct (is_uncaught ev); [| now apply IH].
  destruct pending; [discriminate | now apply IH].
Qed.

Lemma continues_refl (accepted : error -> Prop) (σ : page) :
  continues accepted σ σ.
Proof.
  exists []. rewrite app_nil_r. repeat split. intros e [].
Qed.

Lemma continues_trans (accepted : error -> Prop) (σ1 σ2 σ3 : page) :
  continues accepted σ1 σ2 -> continues accepted σ2 σ3 ->
  continues accepted σ1 σ3.
Proof.
  intros (a & Ha & Hma & Hea) (b & Hb & Hmb & Heb).
  exists (a ++ b)%list. rewrite Hb, Ha, app_assoc. split; [reflexivity |].
  split; [now apply uncaught_matched_app |].
  intros e [He | He]%in_app_or; auto.
Qed.

Lemma continues_weaken (accepted accepted' : error -> Prop) (σ σ' : page) :
  (forall e, accepted e -> accepted' e) ->
  continues accepted σ σ' -> continues accepted' σ σ'.
Proof.
  intros Himp (a & Ha & Hma & Hea). exists a. repeat split; auto.
Qed.

(** On a page that has the elements looked up, a click handler comes
    to its end unless it is the sign-in or the sign-out handler and the
    call it has just made is rejected. *)
Lemma run_listener_outcome (h : listener) (ans : answer unit) (σ : page) :
  well_formed σ ->
  snd (run_listener h ans σ) = inr tt
  \/ exists e c,
       ans = Fails e
       /\ snd (run_listener h ans σ) = inl e
       /\ is_signin_call c = true
       /\ trace (fst (run_listener h ans σ)) = (trace σ ++ [c])%list.
Proof.
  intros Hwf. destruct h as [id | col | |]; cbn [run_listener].
  - left. now rewrite deleteNoteClick_run.
  - left.
    destruct (well_formed_present σ "note-input" Hwf) as [input Hin];
      [cbn; tauto |].
    now rewrite (saveNoteClick_run col ans σ input Hin).
  - destruct ans as [[] | e]; [left; reflexivity | right].
    exists e, (Call SignIn). repeat split.
  - destruct ans as [[] | e]; [left; reflexivity | right].
    exists e, (Call SignOut). repeat split.
Qed.

(** What the host adds when it runs a handler: the effects of the
    handler, and the error it lets out, if any. *)
Lemma host_run_continues (accepted : error -> Prop) (m : js unit) (σ : page) :
  orderly m ->
  (snd (m σ) = inr tt
   \/ exists e c,
        accepted e /\ snd (m σ) = inl e /\ is_signin_call c = true
        /\ trace (fst (m σ)) = (trace σ ++ [c])%list) ->
  continues accepted σ (host_run m σ).
Proof.
  intros Hm Hout. destruct (Hm σ) as [_ (new & Hnew & Hcalm)]. unfold host_run.
  destruct (m σ) as [σ1 [e | []]]; cbn [fst snd] in *.
  - destruct Hout as [[=] | (e' & c & Hacc & [= <-] & Hc & Hlast)].
    exists [c; Uncaught e]. cbn [trace]. rewrite Hlast, <- app_assoc.
    split; [reflexivity |]. split.
    + intros pending. cbn. rewrite Hc. now destruct c.
    + intros e' [Heq | [[= <-] | []]]; [| exact Hacc].
      rewrite Heq in Hc. discriminate.
  - exists new. split; [exact Hnew |].
    split; [now apply uncaught_matched_calm |].
    intros e He. rewrite Forall_forall in Hcalm.
    apply list_elem_of_In, Hcalm in He. discriminate.
Qed.

Lemma fold_continues {A : Type} (accepted : error -> Prop)
    (f : page -> A -> page) (l : list A) :
  (forall σ x, well_formed σ ->
     well_formed (f σ x) /\ continues accepted σ (f σ x)) ->
  forall σ, well_formed σ ->
    well_formed (fold_left f l σ) /\ continues accepted σ (fold_left f l σ).
Proof.
  intros Hf. induction l as [| x l IH]; intros σ Hwf; cbn [fold_left].
  - split; [exact Hwf | apply continues_refl].
  - destruct (Hf σ x Hwf) as [Hwf1 Hc1]. destruct (IH _ Hwf1) as [Hwf2 Hc2].
    split; [exact Hwf2 | eapply continues_trans; eauto].
Qed.

Lemma host_run_well_formed (m : js unit) (σ : page) :
  orderly m -> well_formed σ -> well_formed (host_run m σ).
Proof.
  intros Hm. apply well_formed_steady. now apply steady_host_run.
Qed.

(** The errors a page event can leave uncaught: the rejection its click
    carries. *)
Lemma deliver_continues `{Host} (ev : page_event) (σ : page) :
  well_formed σ ->
  well_formed (deliver ev σ)
  /\ continues (fun e => exists id path, ev = Click id path (Fails e)) σ (deliver ev σ).
Proof.
  intros Hwf.
  split; [eapply well_formed_steady; [apply steady_deliver | exact Hwf] |].
  destruct ev; unfold deliver.
  - destruct (document σ !! id); [| apply continues_refl].
    apply fold_continues; [| exact Hwf]. intros σ1 h Hwf1.
    split; [apply host_run_well_formed; [apply orderly_run_listener | exact Hwf1] |].
    apply host_run_continues; [apply orderly_run_listener |].
    destruct (run_listener_outcome h ans σ1 Hwf1)
      as [Hok | (err & c & -> & Hraise & Hc & Htr)]; [now left | right].
    exists err, c. repeat split; eauto.
  - apply fold_continues; [| exact Hwf]. intros σ1 l Hwf1.
    destruct (String.eqb _ _); [| split; [exact Hwf1 | apply continues_refl]].
    split; [apply host_run_well_formed;
            [apply orderly_run_snapshot_callback | exact Hwf1] |].
    apply host_run_continues; [apply orderly_run_snapshot_callback | left].
    destruct (snd l); cbn [run_snapshot_callback]; [| reflexivity].
    rewrite renderNotes_run; [reflexivity |].
    apply well_formed_present; [exact Hwf1 | cbn; tauto].
  - apply fold_continues; [| exact Hwf]. intros σ1 cb Hwf1.
    split; [apply host_run_well_formed;
            [apply orderly_run_signin_callback | exact Hwf1] |].
    apply host_run_continues; [apply orderly_run_signin_callback | left].
    destruct cb; cbn [run_signin_callback]; [reflexivity |].
    rewrite updateSigninStatus_run; [reflexivity | ..];
      try intros _; (apply well_formed_present; [exact Hwf1 | cbn; tauto]).
  - apply host_run_continues;
      [unfold initClient; now apply orderly_emit | left; reflexivity].
  - apply host_run_continues; [apply orderly_initClient_settled | left].
    unfold initClient_settled, then_catch.
    now destruct (try_catch_logs
      (a ← await ans;
       (fun _ : unit =>
          signin_listen UpdateSigninStatus ;;
          updateSigninStatus signedIn now ;;
          a ← getElementById "authorize_button";
          mutate a (SetOnclick HandleAuthClick) ;;
          s ← getElementById "signout_button";
          mutate s (SetOnclick HandleSignoutClick)) a)
      "Error initialising Google API client" σ) as [σ1 ->].
  - apply host_run_continues; [apply orderly_listUpcomingEvents_settled | left].
    destruct (listUpcomingEvents_settled_document ans σ) as (σ1 & -> & _).
    reflexivity.
Qed.

Lemma orderly_fetchWeather_settled (tempElemId descElemId : string)
    (net : answer response) :
  orderly (fetchWeather_settled tempElemId descElemId net).
Proof.
  unfold fetchWeather_settled, get_current_weather, console_error.
  orderly_tac.
Qed.

Lemma present_steady (σ σ' : page) (id : string) :
  steady σ σ' -> present id σ -> present id σ'.
Proof.
  intros (_ & Hdom & _) Hid. unfold present in *.
  apply elem_of_dom. rewrite Hdom. now apply elem_of_dom.
Qed.

Lemma complete_steady (w : window) (σ' : page) (pending : list (string * string)) :
  well_formed (the_page w) ->
  Forall (fun slots => present (fst slots) (the_page w)
                       /\ present (snd slots) (the_page w)) pending ->
  steady (the_page w) σ' ->
  complete (Window σ' (gapiLoads w) pending).
Proof.
  intros Hwf Hslots Hsteady. split; cbn [the_page suspended].
  - eapply well_formed_steady; eauto.
  - eapply Forall_impl; [exact Hslots |].
    intros [t d] [Ht Hd]. split; eapply present_steady; eauto.
Qed.

(** One event of the window: the page stays complete, and the only
    errors it can leave uncaught are the rejection a click carries. *)
Lemma window_deliver_continues `{Host} (ev : window_event) (w : window) :
  complete w ->
  complete (window_deliver ev w)
  /\ continues
       (fun e => exists id path, ev = PageEvent (Click id path (Fails e)))
       (the_page w) (the_page (window_deliver ev w)).
Proof.
  intros Hw. destruct ev as [ev | i net]; cbn [window_deliver].
  - destruct (deliver_continues ev (the_page w) (proj1 Hw)) as [_ Hc]. split.
    + apply complete_steady; [apply Hw | apply Hw | apply steady_deliver].
    + cbn [the_page]. eapply continues_weaken; [| exact Hc].
      intros e (id & path & ->). eauto.
  - unfold weather_settles.
    destruct (suspended w !! i) as [[t d] |] eqn:Hi;
      [| split; [exact Hw | apply continues_refl]].
    destruct Hw as [Hwf Hslots].
    pose proof (Forall_lookup_1 _ _ _ _ Hslots Hi) as [Ht Hd]. cbn [fst snd] in *.
    split.
    + apply complete_steady; [exact Hwf | now apply Forall_delete |].
      apply steady_host_run, orderly_fetchWeather_settled.
    + cbn [the_page]. apply host_run_continues;
        [apply orderly_fetchWeather_settled | left].
      destruct (fetchWeather_settled_run t d net (the_page w) Ht Hd) as [new ->].
      now destruct (weather_rendering net) as [[? ?] ?].
Qed.

Lemma window_deliver_all_continues `{Host}
    (accepted : error -> Prop) (evs : list window_event) :
  (forall ev e id path,
     In ev evs -> ev = PageEvent (Click id path (Fails e)) -> accepted e) ->
  forall w, complete w ->
    complete (window_deliver_all evs w)
    /\ continues accepted (the_page w) (the_page (window_deliver_all evs w)).
Proof.
  unfold window_deliver_all.
  induction evs as [| ev evs IH]; intros Hacc w Hw; cbn [fold_left].
  - split; [exact Hw | apply continues_refl].
  - destruct (window_deliver_continues ev w Hw) as [Hw1 Hc1].
    destruct (IH (fun ev' e id path Hin => Hacc ev' e id path (or_intror Hin)) _ Hw1)
      as [Hw2 Hc2].
    split; [exact Hw2 |]. eapply continues_trans; [| exact Hc2].
    eapply continues_weaken; [| exact Hc1].
    intros e (id & path & Hev). eapply Hacc; [left; reflexivity | exact Hev].
Qed.

(** X22.  On a page that has every element the script looks up, the
    slots of the suspended weather calls included, whatever happens
    after [window.initGoogle] - page events and settled weather fetches
    in any order - the page keeps these elements and the only errors
    that reach the host uncaught are rejections of sign-in and sign-out:
    each uncaught error added to the trace is the rejection carried by a
    click, and has a call of sign-in or sign-out of its own before it.
    (The host's report of the rejection is placed right after the call;
    the statement does not rely on where it is placed.) *)
Theorem uncaught_errors_come_from_signin `{Host}
    (evs : list window_event) (w : window) :
  complete w ->
  let w' := window_deliver_all evs w in
  complete w'
  /\ exists added,
       trace (the_page w') = (trace (the_page w) ++ added)%list
       /\ uncaught_matched 0 added = true
       /\ forall e, In (Uncaught e) added ->
            exists id path, In (PageEvent (Click id path (Fails e))) evs.
Proof.
  intros Hw. cbn zeta.
  destruct (window_deliver_all_continues
              (fun e => exists id path, In (PageEvent (Click id path (Fails e))) evs)
              evs) with (w := w) as [Hw' (added & Htr & Hm & He)];
    [| exact Hw |].
  - intros ev e id path Hin ->. eauto.
  - split; [exact Hw' |]. exists added. auto.
Qed.

Lemma uncaught_errors_come_from_signin_witness :
  complete
    (@window_deliver_all sample_host
       [ PageEvent (ClientInitSettled (Returns tt) false "2026-11-02T08:00:00.000Z");
         WeatherSettled 1 (Fails (Failure "offline"));
         PageEvent (Click "authorize_button" [] (Fails (Failure "popup_closed_by_user")));
         PageEvent (SnapshotDelivered "notes" [DocSnap "a1" "Buy milk"]);
         WeatherSettled 0 (Returns (Response true (Returns (JsonObject None)))) ]
       (fst (initGoogle (Window sample_page [] [])))).
Proof.
  refine (proj1 (@uncaught_errors_come_from_signin sample_host _
                   (fst (initGoogle (Window sample_page [] []))) _)).
  split.
  - unfold well_formed, required, present.
    repeat constructor; eexists; reflexivity.
  - unfold present. repeat constructor; eexists; reflexivity.
Defined.
